(** * Steem-Curation-Extension: the curation-efficiency pipeline

    A shallow embedding of
      - [getPostCached]                (src/post/votes/votes.js),
      - [getHistoricCurationRewards]   (src/post/votes/votes.js),
      - [VoterTip.prefetchEfficiencyData] (src/post/votes/VoterTip.js),
      - [EfficiencyScatter]            (src/post/votes/votes.js),
    followed by the properties of the written specification that are
    settled on it.

    Conventions of the embedding.
      - A JavaScript number is a [number]: a rational, or one of NaN,
        +Infinity, -Infinity.  The efficiency computation of the
        aggregator rounds every sum, product and quotient to the
        nearest double ([fadd], [fmul], [fdiv]); the chart, the fetch
        window and the time labels compute on whole percentages,
        milliseconds and seconds with [add], [mul] and [div], which
        are exact.  Signed zero is not modelled.
      - [await] on a promise reads the value the promise settles to; the
        run of one tip is sequential, as in the source.
      - The DOM, the labels and colours of the chart and the calls to
        [chart.update] have no effect on the modelled state. *)

From Stdlib Require Import QArith Qround Qabs Qpower ZArith Lia Lqa.
From Stdlib Require Import Permutation Sorted.
From stdpp Require Import base option list strings gmap.

Set Default Proof Using "Type".
Local Open Scope Q_scope.

(* ===================================================================== *)
(** ** JavaScript numbers *)
(* ===================================================================== *)

Module Js.

Inductive number : Type :=
  | Fin (q : Q)
  | PInf
  | NInf
  | NaN.

(** [Number.isFinite] *)
Definition isFinite (n : number) : bool :=
  match n with Fin _ => true | _ => false end.

(** JavaScript truthiness of a number: [0] and [NaN] are falsy. *)
Definition truthy (n : number) : bool :=
  match n with
  | Fin q => negb (Qeq_bool q 0)
  | NaN => false
  | PInf | NInf => true
  end.

Definition Qltb (a b : Q) : bool := negb (Qle_bool b a).

(** [a < b]; any comparison with NaN is false. *)
Definition lt (a b : number) : bool :=
  match a, b with
  | NaN, _ | _, NaN => false
  | _, NInf => false
  | NInf, _ => true
  | PInf, _ => false
  | Fin _, PInf => true
  | Fin x, Fin y => Qltb x y
  end.

Definition gt (a b : number) : bool := lt b a.

(** [a <= b] *)
Definition le (a b : number) : bool :=
  match a, b with
  | NaN, _ | _, NaN => false
  | NInf, _ => true
  | _, PInf => true
  | _, NInf => false
  | PInf, _ => false
  | Fin x, Fin y => Qle_bool x y
  end.

Definition neg (a : number) : number :=
  match a with
  | Fin q => Fin (- q)
  | PInf => NInf
  | NInf => PInf
  | NaN => NaN
  end.

Definition add (a b : number) : number :=
  match a, b with
  | NaN, _ | _, NaN => NaN
  | Fin x, Fin y => Fin (x + y)
  | PInf, NInf | NInf, PInf => NaN
  | PInf, _ | _, PInf => PInf
  | NInf, _ | _, NInf => NInf
  end.

Definition sub (a b : number) : number := add a (neg b).

(** The infinity carrying the sign of the rational [q] times the sign
    [pos]; NaN when [q] is zero. *)
Definition inf_signed (pos : bool) (q : Q) : number :=
  if Qeq_bool q 0 then NaN
  else if Bool.eqb pos (Qltb 0 q) then PInf else NInf.

Definition mul (a b : number) : number :=
  match a, b with
  | NaN, _ | _, NaN => NaN
  | Fin x, Fin y => Fin (x * y)
  | PInf, Fin q | Fin q, PInf => inf_signed true q
  | NInf, Fin q | Fin q, NInf => inf_signed false q
  | PInf, PInf | NInf, NInf => PInf
  | PInf, NInf | NInf, PInf => NInf
  end.

Definition div (a b : number) : number :=
  match a, b with
  | NaN, _ | _, NaN => NaN
  | Fin x, Fin y =>
      if Qeq_bool y 0 then inf_signed true x else Fin (x / y)
  | Fin _, (PInf | NInf) => Fin 0
  | PInf, Fin q => if Qltb q 0 then NInf else PInf
  | NInf, Fin q => if Qltb q 0 then PInf else NInf
  | (PInf | NInf), (PInf | NInf) => NaN
  end.

(** Rounding of a rational to the nearest integer, ties upwards: the
    value of [Math.round] on a real number. *)
Definition Qround (q : Q) : Z := Qfloor (q + (1 # 2)).

Definition Math_round (a : number) : number :=
  match a with Fin q => Fin (inject_Z (Qround q)) | _ => a end.

Definition Math_ceil (a : number) : number :=
  match a with Fin q => Fin (inject_Z (Qceiling q)) | _ => a end.

Definition Math_floor (a : number) : number :=
  match a with Fin q => Fin (inject_Z (Qfloor q)) | _ => a end.

(** Binary step of [Math.max]: NaN wins, otherwise the larger. *)
Definition max2 (a b : number) : number :=
  match a, b with
  | NaN, _ | _, NaN => NaN
  | _, _ => if lt a b then b else a
  end.

(** [Math.max(...l)]; the maximum of no argument is -Infinity. *)
Definition Math_max (l : list number) : number := foldl max2 NInf l.

(** [x ?? d] on an optional number. *)
Definition nullish (x : option number) (d : number) : number :=
  match x with Some v => v | None => d end.

(** [Number(x) || 0] on a number: NaN and 0 become 0. *)
Definition or_zero (x : number) : number :=
  if truthy x then x else Fin 0.

(** [Number(x.toFixed(2))]: two decimals, ties away from zero. *)
Definition toFixed2 (a : number) : number :=
  match a with
  | Fin q =>
      if Qltb q 0
      then Fin (- (inject_Z (Qround (- q * 100)) / 100))
      else Fin (inject_Z (Qround (q * 100)) / 100)
  | _ => a
  end.

Definition ofZ (z : Z) : number := Fin (inject_Z z).

(** *** Double precision *)

(** [2 ^ e] for an integer [e] of either sign. *)
Definition pow2 (e : Z) : Q :=
  if (0 <=? e)%Z then inject_Z (2 ^ e) else / inject_Z (2 ^ (- e)).

(** [floor (log2 q)] for a positive rational [q]: the quotient of a
    numerator in [[2^a, 2^(a+1))] by a denominator in [[2^b, 2^(b+1))]
    lies in [(2^(a-b-1), 2^(a-b+1))]. *)
Definition ilog2 (q : Q) : Z :=
  let k := (Z.log2 (Qnum q) - Z.log2 (Zpos (Qden q)))%Z in
  if Qle_bool (pow2 k) q then k else (k - 1)%Z.

(** The integer nearest to a rational, ties to the even one. *)
Definition round_half_even (q : Q) : Z :=
  let f := Qfloor q in
  match Qcompare (q - inject_Z f) (1 # 2) with
  | Lt => f
  | Gt => (f + 1)%Z
  | Eq => if Z.even f then f else (f + 1)%Z
  end.

(** The exponent of the last bit of the doubles around a positive
    rational [q]: 52 below that of [q], and [-1074] for a subnormal. *)
Definition exponent (q : Q) : Z := Z.max (ilog2 q - 52) (-1074).

(** The binary64 value of a positive rational [q], to nearest, ties to
    even: a significand of 53 bits at the exponent of [q], and
    +Infinity from [2^1024] on. *)
Definition double_pos (q : Q) : number :=
  let e := exponent q in
  let m := round_half_even (q / pow2 e) in
  let v := Qred (inject_Z m * pow2 e) in
  if Qle_bool (pow2 1024) v then PInf else Fin v.

(** The double nearest to a rational. *)
Definition to_double (q : Q) : number :=
  match Qcompare q 0 with
  | Eq => Fin 0
  | Gt => double_pos q
  | Lt => neg (double_pos (- q))
  end.

(** The double a computed number is stored as. *)
Definition dbl (n : number) : number :=
  match n with Fin q => to_double q | _ => n end.

(** [a / b], [a * b] and [a + b] as the program computes them: the
    exact result rounded to a double. *)
Definition fdiv (a b : number) : number := dbl (div a b).
Definition fmul (a b : number) : number := dbl (mul a b).
Definition fadd (a b : number) : number := dbl (add a b).

(** [new Date(v).getTime()] for a number [v]: the time value clipped
    to the range of a [Date], a whole number of milliseconds within
    [8.64e15] of the epoch, NaN otherwise. *)
Definition timeClip (n : number) : number :=
  match n with
  | Fin q =>
      if Qltb 8640000000000000 q || Qltb q (- 8640000000000000) then NaN
      else Fin (inject_Z (if Qltb q 0 then Qceiling q else Qfloor q))
  | _ => NaN
  end.

End Js.

Import Js.

(* ===================================================================== *)
(** ** EfficiencyScatter: the chart state machine (votes.js) *)
(* ===================================================================== *)

Module EfficiencyScatter.

(** The object literal pushed on [_rawPoints]. *)
Record RawPoint : Type := mkRaw {
  tsMs : number;
  efficiency : number;
  weightedEff : number;
  voterRewardValue : number;
  totalValue : number;
  sameAuthor : bool
}.

(** An element of [chart.data.datasets[0].data]. *)
Record DataPoint : Type := mkData {
  pt_x : number;
  pt_y : number;
  pt_efficiency : number;
  pt_weightedEff : number;
  pt_voterRewardValue : number;
  pt_totalValue : number;
  pt_sameAuthor : bool
}.

(** A guide-line dataset, as built by [_upsertLineDataset]. *)
Record LineDataset : Type := mkLine {
  _id : string;
  line_label : string;
  line_color : string;
  line_data : list (number * number)
}.

(** The fields of an [EfficiencyScatter] instance.  The constructor
    always ends with [createChart()], which assigns [this.chart], and
    nothing clears it afterwards: every instance has a chart, whose
    state is kept in the last six fields
    ([points] is [chart.data.datasets[0].data], [lines] the datasets
    after it, the rest [chart.options.scales.{x,y}.{min,max}]). *)
Record Scatter : Type := mkScatter {
  yBaselineMin : number;
  showWeighted : bool;
  _minPointTs : number;
  finalized : bool;
  _rawPoints : list RawPoint;
  startMs : number;
  endMs : number;
  points : list DataPoint;
  lines : list LineDataset;
  x_min : number;
  x_max : number;
  y_min : number;
  y_max : option number
}.

Definition oneDayMs : number := ofZ (24 * 60 * 60 * 1000).

(** [constructor({anchorTs, days = 7, yBaselineMin = 0, ...})].
    [anchorMs] is [_toMs(anchorTs ?? Date.now())] and [midnight] is
    [_midnight(new Date(anchorMs)).getTime()]: both read the clock or
    the time zone of the browser and are taken as given.  [startMs]
    is [new Date(anchorMs - (days + 1) * 24 * 60 * 60 * 1000)
    .getTime()]. *)
Definition constructor (anchorMs : number) (days : option number)
    (midnight : number) (baseline : option number) : Scatter :=
  let d := nullish days (ofZ 7) in
  let b := nullish baseline (ofZ 0) in
  let start := timeClip (sub anchorMs (mul (add d (ofZ 1)) oneDayMs)) in
  {| yBaselineMin := b;
     showWeighted := false;
     _minPointTs := NInf;
     finalized := false;
     _rawPoints := [];
     startMs := start;
     endMs := midnight;
     points := [];
     lines := [];
     x_min := start;
     x_max := midnight;
     y_min := b;
     y_max := None |}.

(** [!yScale.max]: unset, [0] and [NaN] are all falsy. *)
Definition falsy_opt (m : option number) : bool :=
  match m with None => true | Some v => negb (truthy v) end.

(** [pushPoint({tsMs, efficiency, ..., pad = 5})] *)
Definition pushPoint (s : Scatter) (p : RawPoint) (pad : option number)
    : Scatter :=
  if negb (isFinite (tsMs p)) || negb (isFinite (efficiency p)) then s
  else
    let pad := nullish pad (ofZ 5) in
    let y := Math_round
               (if showWeighted s then weightedEff p else efficiency p) in
    let dp := {| pt_x := tsMs p; pt_y := y;
                 pt_efficiency := efficiency p;
                 pt_weightedEff := weightedEff p;
                 pt_voterRewardValue := voterRewardValue p;
                 pt_totalValue := totalValue p;
                 pt_sameAuthor := sameAuthor p |} in
    let candidateMax := Math_ceil (add y pad) in
    let moved := lt (tsMs p) (_minPointTs s) in
    {| yBaselineMin := yBaselineMin s;
       showWeighted := showWeighted s;
       _minPointTs := if moved then tsMs p else _minPointTs s;
       finalized := finalized s;
       _rawPoints := _rawPoints s ++ [p];
       startMs := startMs s;
       endMs := endMs s;
       points := points s ++ [dp];
       lines := lines s;
       x_min := if moved then sub (tsMs p) (ofZ 5) else x_min s;
       x_max := x_max s;
       y_min := y_min s;
       y_max := if falsy_opt (y_max s)
                   || match y_max s with
                      | Some m => gt candidateMax m
                      | None => false
                      end
                then Some candidateMax else y_max s |}.

(** The finite part of a number, for [filter(Number.isFinite)]. *)
Definition finite_part (n : number) : option Q :=
  match n with Fin q => Some q | _ => None end.

(** [_yValues()]: the finite [y] of the plotted points. *)
Definition _yValues (s : Scatter) : list Q :=
  omap finite_part (map pt_y (points s)).

(** [Array.prototype.sort((a, b) => a - b)] on finite numbers: a stable
    ascending sort. *)
Fixpoint sort_insert (a : Q) (l : list Q) : list Q :=
  match l with
  | [] => [a]
  | b :: l' => if Qle_bool a b then a :: l else b :: sort_insert a l'
  end.

Definition sort_numeric (l : list Q) : list Q := foldr sort_insert [] l.

(** [_stats()]: [{mean, median}], both [null] on an empty chart. *)
Definition _stats (s : Scatter) : option number * option number :=
  let ys := sort_numeric (_yValues s) in
  match ys with
  | [] => (None, None)
  | _ =>
      let mean := foldl Qplus 0 ys / inject_Z (Z.of_nat (length ys)) in
      let mid := (length ys / 2)%nat in
      let median :=
        if (length ys mod 2 =? 0)%nat
        then (nth (mid - 1) ys 0 + nth mid ys 0) / 2
        else nth mid ys 0 in
      (Some (Fin mean), Some (Fin median))
  end.

(** [_upsertLineDataset(id, y, color, label)] *)
Fixpoint upsert (d : LineDataset) (l : list LineDataset)
    : list LineDataset :=
  match l with
  | [] => [d]
  | e :: l' => if String.eqb (_id e) (_id d) then d :: l' else e :: upsert d l'
  end.

Definition set_lines (s : Scatter) (l : list LineDataset) : Scatter :=
  {| yBaselineMin := yBaselineMin s; showWeighted := showWeighted s;
     _minPointTs := _minPointTs s; finalized := finalized s;
     _rawPoints := _rawPoints s; startMs := startMs s; endMs := endMs s;
     points := points s; lines := l;
     x_min := x_min s; x_max := x_max s; y_min := y_min s;
     y_max := y_max s |}.

Definition set_y_max (s : Scatter) (m : option number) : Scatter :=
  {| yBaselineMin := yBaselineMin s; showWeighted := showWeighted s;
     _minPointTs := _minPointTs s; finalized := finalized s;
     _rawPoints := _rawPoints s; startMs := startMs s; endMs := endMs s;
     points := points s; lines := lines s;
     x_min := x_min s; x_max := x_max s; y_min := y_min s;
     y_max := m |}.

Definition _upsertLineDataset (s : Scatter) (id : string)
    (y : option number) (color label : string) : Scatter :=
  match y with
  | None => s
  | Some y =>
      if negb (isFinite y) then s
      else
        let minX := x_min s in
        let maxX := x_max s in
        let midX := div (add minX maxX) (ofZ 2) in
        set_lines s
          (upsert {| _id := id; line_label := label; line_color := color;
                     line_data := [(minX, y); (midX, y); (maxX, y)] |}
                  (lines s))
  end.

(** [if (mean)]: [null], [0] and [NaN] are falsy. *)
Definition truthy_opt (m : option number) : bool := negb (falsy_opt m).

(** [addStatsLines()] *)
Definition addStatsLines (s : Scatter) : Scatter :=
  if finalized s then
    let '(mean, median) := _stats s in
    let s1 := if truthy_opt mean
              then _upsertLineDataset s "mean-line" mean
                     "rgba(107,114,128,0.8)" "Mean"
              else s in
    let s2 := if truthy_opt median
              then _upsertLineDataset s1 "median-line" median
                     "rgba(55,65,81,0.9)" "Median"
              else s1 in
    let yMax := Math_max [nullish (y_max s2) NInf;
                          nullish mean NInf;
                          nullish median NInf] in
    if isFinite yMax
    then set_y_max s2 (Some (Math_ceil (add yMax (ofZ 5))))
    else s2
  else s.

(** [finalize()] *)
Definition finalize (s : Scatter) : Scatter :=
  {| yBaselineMin := yBaselineMin s; showWeighted := showWeighted s;
     _minPointTs := _minPointTs s; finalized := true;
     _rawPoints := _rawPoints s; startMs := startMs s; endMs := endMs s;
     points := points s; lines := lines s;
     x_min := x_min s; x_max := x_max s; y_min := y_min s;
     y_max := y_max s |}.

(** [_resetGuideLines()] *)
Definition guide_ids : list string :=
  ["mean-line"; "median-line"; "weightedMean-line"].

Definition is_guide (d : LineDataset) : bool :=
  existsb (String.eqb (_id d)) guide_ids.

Definition _resetGuideLines (l : list LineDataset) : list LineDataset :=
  filter (fun d => is_guide d = false) l.

(** The remapping of one plotted point in [toggleMode]:
    [p.y = Math.round(this.showWeighted ? p.weightedEff : p.efficiency)] *)
Definition remap (weighted : bool) (p : DataPoint) : DataPoint :=
  {| pt_x := pt_x p;
     pt_y := Math_round
               (if weighted then pt_weightedEff p else pt_efficiency p);
     pt_efficiency := pt_efficiency p;
     pt_weightedEff := pt_weightedEff p;
     pt_voterRewardValue := pt_voterRewardValue p;
     pt_totalValue := pt_totalValue p;
     pt_sameAuthor := pt_sameAuthor p |}.

(** [toggleMode()] *)
Definition toggleMode (s : Scatter) : Scatter :=
  let w := negb (showWeighted s) in
  let data := map (remap w) (points s) in
  let yVals := filter (fun n => isFinite n = true) (map pt_y data) in
  let ymax :=
    match yVals with
    | [] => None
    | _ => Some (Math_ceil
                   (add (Math_max (yVals ++ [yBaselineMin s])) (ofZ 5)))
    end in
  addStatsLines
    {| yBaselineMin := yBaselineMin s;
       showWeighted := w;
       _minPointTs := _minPointTs s;
       finalized := finalized s;
       _rawPoints := _rawPoints s;
       startMs := startMs s;
       endMs := endMs s;
       points := data;
       lines := _resetGuideLines (lines s);
       x_min := x_min s;
       x_max := x_max s;
       y_min := y_min s;
       y_max := ymax |}.

(** [_getY(p)]: the rounded active value, or [null] when it is not a
    finite number. *)
Definition _getY (s : Scatter) (p : RawPoint) : option number :=
  let v := if showWeighted s then weightedEff p else efficiency p in
  if isFinite v then Some (Math_round v) else None.

Definition set_points (s : Scatter) (l : list DataPoint) : Scatter :=
  {| yBaselineMin := yBaselineMin s; showWeighted := showWeighted s;
     _minPointTs := _minPointTs s; finalized := finalized s;
     _rawPoints := _rawPoints s; startMs := startMs s; endMs := endMs s;
     points := l; lines := lines s;
     x_min := x_min s; x_max := x_max s; y_min := y_min s;
     y_max := y_max s |}.

(** [_applyModeToDataset(updateMode)]: the plot rebuilt from
    [_rawPoints]; [filter(Boolean)] drops the [null] entries. *)
Definition _applyModeToDataset (s : Scatter) : Scatter :=
  set_points s
    (omap (fun p =>
             match _getY s p with
             | None => None
             | Some y =>
                 Some {| pt_x := tsMs p; pt_y := y;
                         pt_efficiency := efficiency p;
                         pt_weightedEff := weightedEff p;
                         pt_voterRewardValue := voterRewardValue p;
                         pt_totalValue := totalValue p;
                         pt_sameAuthor := sameAuthor p |}
             end)
          (_rawPoints s)).

(** The argument of [_toMs]: a [Date] (with its [getTime()]), a number,
    or anything else (with the [getTime()] of the [Date] built from it). *)
Inductive TimeArg : Type :=
  | TDate (ms : number)
  | TNumber (n : number)
  | TOther (parsed : number).

(** [_toMs(t)]: a number below [1e12] is taken for seconds. *)
Definition _toMs (t : TimeArg) : number :=
  match t with
  | TDate ms => ms
  | TNumber n => if lt n (ofZ (10 ^ 12)) then mul n (ofZ 1000) else n
  | TOther parsed => parsed
  end.

End EfficiencyScatter.

(* ===================================================================== *)
(** ** getPostCached: the per-key cache of post futures (votes.js) *)
(* ===================================================================== *)

Module PostCache.

(** The fields of [post.details] the efficiency computation reads. *)
Record Details : Type := mkDetails {
  total_vests : option number;
  totalVests : option number;
  total_rshares : option number;
  totalRshares : option number;
  total_payout_value : number
}.

Record Post : Type := mkPost {
  author : string;
  permlink : string;
  details : Details
}.

(** What the retry loop reads of a thrown value. *)
Record JsError : Type := mkError {
  message : option string;
  status : option Z;
  code : option Z
}.

Inductive Settled : Type :=
  | Resolved (p : Post)
  | Rejected (e : JsError).

(** One call that reached the cache: [(author, permlink, time)]. *)
Definition Call : Type := string * string * number.

(** The promise of one run of the [async () => { new Post(...);
    fetchDetails; getVoteData; getTotalVests(time); return p }] block:
    [pid] is its identity (the number of such blocks started before it
    on this cache), [begun_with] the arguments it closed over, and
    [settled] what it settles to. *)
Record Promise : Type := mkPromise {
  pid : nat;
  begun_with : Call;
  settled : Settled
}.

(** [postCache], with the log of the fetch-and-build blocks started. *)
Record Cache : Type := mkCache {
  postCache : gmap string Promise;
  begun : list Call
}.

Definition empty_cache : Cache := {| postCache := ∅; begun := [] |}.

(** [keyFor(a, p)], the template literal [`${a}/${p}`] *)
Definition keyFor (a p : string) : string := a +:+ "/" +:+ p.

Section WithResolver.

(** The class [Post] is not part of the sources at hand.  What the
    [n]-th fetch-and-build block started on a cache settles to is a
    parameter: the remote service may answer each of them differently. *)
Variable resolver : nat -> string -> string -> number -> Settled.

(** [getPostCached(author, permlink, time)]: the cache after the call
    and the promise returned. *)
Definition getPostCached (c : Cache) (a p : string) (t : number)
    : Cache * Promise :=
  let key := keyFor a p in
  match postCache c !! key with
  | Some f => (c, f)
  | None =>
      let f := {| pid := length (begun c);
                  begun_with := (a, p, t);
                  settled := resolver (length (begun c)) a p t |} in
      ({| postCache := <[key := f]> (postCache c);
          begun := begun c ++ [(a, p, t)] |}, f)
  end.

(** Any further calls made on the cache, by this tip or another. *)
Definition run_calls (c : Cache) (l : list Call) : Cache :=
  foldl (fun c '(a, p, t) => fst (getPostCached c a p t)) c l.

End WithResolver.

End PostCache.

(* ===================================================================== *)
(** ** getHistoricCurationRewards and VoterTip.prefetchEfficiencyData *)
(* ===================================================================== *)

Module VoterTip.
Import EfficiencyScatter PostCache.

Record Vote : Type := mkVote {
  voter : string;
  percent : number;
  rshares : number
}.

(** One row of the reward table, read through the column indices
    [cols.time], [cols.author], [cols.permlink], [cols.vests]. *)
Record Reward : Type := mkReward {
  time : number;
  r_author : string;
  r_permlink : string;
  vests : number
}.

(** What [fetch(url)] and [response.json()] can do. *)
Inductive Response : Type :=
  | FetchRejected                      (* [fetch] rejects: network error *)
  | HttpStatus (st : Z)                (* [response.ok] is false *)
  | BadBody                            (* [response.json()] rejects *)
  | Body (result : option (list Reward)). (* [data.result], with its rows *)

Inductive Exn : Type :=
  | ReferenceError (name : string)
  | TypeError.

(** How the promise of an [async] function settles. *)
Inductive Completion : Type :=
  | Returned
  | Threw (e : Exn).

(** The fields of a [VoterTip] the run reads and writes;
    [post_author] is [this.post.author] and [post_createdMs] is
    [new Date(this.post.details.created).getTime()]. *)
Record Tip : Type := mkTip {
  user : string;
  post_author : string;
  post_createdMs : number;
  vote : Vote;
  days : number;
  efficiencyData : list RawPoint;
  totalCurationRew : number;
  contributedValue : number;
  totAuthor : Z;
  scatter : option Scatter
}.

(** The window [lowerDay-upperDay] of the request, in epoch seconds, as
    [getHistoricCurationRewards] computes it before its [try] block. *)
Definition fetch_window (createdMs days : number) : number * number :=
  let oneDay := ofZ (24 * 60 * 60 * 1000) in
  let timeSpan := mul days oneDay in
  let dayBeforeMs := sub createdMs oneDay in
  let weekBeforeDayBeforeMs := sub dayBeforeMs timeSpan in
  let upperDay := Math_floor (div dayBeforeMs (ofZ 1000)) in
  let lowerDay := Math_floor (div weekBeforeDayBeforeMs (ofZ 1000)) in
  (lowerDay, upperDay).

(** [new Date(post.details.created).getTime()], the reading of the
    creation time [getHistoricCurationRewards] starts from: the time of
    a [Date], the clipped value of a number, the time of the [Date]
    built from anything else.  (The chart reads the same field with
    [_toMs].) *)
Definition createdMs (created : TimeArg) : number :=
  match created with
  | TDate ms => ms
  | TNumber n => timeClip n
  | TOther parsed => parsed
  end.

Section WithServices.

Variable resolver : nat -> string -> string -> number -> Settled.

(** The rewards service: the answer to a request for a voter and a
    window [lowerDay-upperDay]. *)
Variable rewards_api : string -> number -> number -> Response.

(** [getHistoricCurationRewards(voter, post, days)]: every failure of
    the [try] block is caught, logged and turned into [null]. *)
Definition getHistoricCurationRewards (voter : string) (createdMs : number)
    (days : number) : option (list Reward) :=
  let '(lowerDay, upperDay) := fetch_window createdMs days in
  match rewards_api voter lowerDay upperDay with
  | FetchRejected => None
  | HttpStatus _ => None
  | BadBody => None
  | Body result => result
  end.

(** [String.prototype.includes] *)
Fixpoint includes (needle hay : string) : bool :=
  String.prefix needle hay
  || match hay with
     | EmptyString => false
     | String _ rest => includes needle rest
     end.

(** The test of the [catch] block:
    [err?.message?.includes("503") || err?.status === 503 ||
     err?.code === 503] *)
Definition is503 (err : JsError) : bool :=
  match message err with Some m => includes "503" m | None => false end
  || match status err with Some st => (st =? 503)%Z | None => false end
  || match code err with Some cd => (cd =? 503)%Z | None => false end.

(** The loop [for (let i = 0; i < 5; i++) { try { histPost = await
    this.getPostCached(...) } catch (err) { ... } }], with [n] rounds
    left.  A fulfilled round does not leave the loop.  In the [catch]
    block the 503 branch calls [sleep(100)] without awaiting it; the
    other branch evaluates the arguments of [console.error], among
    them the identifier [error], which no scope declares: a
    ReferenceError leaves the [catch] block and the function.
    The second component logs the promises awaited, in order. *)
Fixpoint histPost_loop (n : nat) (c : Cache) (a p : string) (t : number)
    (histPost : option Post) (awaited : list Promise)
    : Cache * list Promise * (Exn + option Post) :=
  match n with
  | O => (c, awaited, inr histPost)
  | S n' =>
      let '(c1, f) := getPostCached resolver c a p t in
      match settled f with
      | Resolved post =>
          histPost_loop n' c1 a p t (Some post) (awaited ++ [f])
      | Rejected err =>
          if is503 err
          then histPost_loop n' c1 a p t histPost (awaited ++ [f])
          else (c1, awaited ++ [f], inl (ReferenceError "error"))
      end
  end.

(** [Number(histPost.details.total_vests ?? histPost.details.totalVests
    ?? 0)] and its sibling for rshares. *)
Definition resolved_total_vests (h : Post) : number :=
  match total_vests (details h) with
  | Some v => v
  | None => nullish (totalVests (details h)) (ofZ 0)
  end.

Definition resolved_total_rshares (h : Post) : number :=
  match total_rshares (details h) with
  | Some v => v
  | None => nullish (totalRshares (details h)) (ofZ 0)
  end.

Definition set_totAuthor (tip : Tip) (n : Z) : Tip :=
  {| user := user tip; post_author := post_author tip;
     post_createdMs := post_createdMs tip; vote := vote tip;
     days := days tip; efficiencyData := efficiencyData tip;
     totalCurationRew := totalCurationRew tip;
     contributedValue := contributedValue tip;
     totAuthor := n; scatter := scatter tip |}.

(** The body of the [for (const reward of rows)] loop after the
    historic post is resolved (lines 104-152). [None] stands for the
    normal end of the iteration, by [continue] or by falling through.
    Every quotient, product and sum is rounded to a double, in the
    order the source evaluates them; [Number(x.toFixed(2))] is the
    double nearest to the two-decimal rounding of [x]. *)
Definition score_reward (tip : Tip) (reward : Reward) (histPost : Post)
    : Tip * option Exn :=
  let sameAuthor := String.eqb (author histPost) (post_author tip) in
  let tip := if sameAuthor then set_totAuthor tip (totAuthor tip + 1)
             else tip in
  let voterVests := or_zero (vests reward) in
  let totalVests := resolved_total_vests histPost in
  let totalRshares := resolved_total_rshares histPost in
  let voterRshares := fdiv (rshares (vote tip)) (ofZ 1000000) in
  if le totalVests (ofZ 0) || le totalRshares (ofZ 0)
     || le voterRshares (ofZ 0) || le voterVests (ofZ 0)
  then (tip, None)
  else
    let pctContributed := fdiv voterRshares totalRshares in
    let pctReceived := fdiv voterVests totalVests in
    if le pctContributed (ofZ 0) then (tip, None)
    else
      let efficiency :=
        Math_round (fmul (fdiv pctReceived pctContributed) (ofZ 100)) in
      let voteWeight := fdiv (percent (vote tip)) (ofZ 10000) in
      let weightedEfficiency := Math_round (fmul efficiency voteWeight) in
      let tsMs := fmul (time reward) (ofZ 1000) in
      let totalValue :=
        dbl (toFixed2 (total_payout_value (details histPost))) in
      let voterRewardValue :=
        dbl (toFixed2 (fmul (fdiv voterVests totalVests) totalValue)) in
      let voterContributedValue :=
        dbl (toFixed2 (fmul (fdiv voterRshares totalRshares) totalValue)) in
      let point := {| tsMs := tsMs;
                      efficiency := efficiency;
                      weightedEff := weightedEfficiency;
                      voterRewardValue := voterRewardValue;
                      totalValue := totalValue;
                      sameAuthor := sameAuthor |} in
      match scatter tip with
      | None => (tip, Some TypeError)
      | Some sc =>
          ({| user := user tip; post_author := post_author tip;
              post_createdMs := post_createdMs tip; vote := vote tip;
              days := days tip;
              efficiencyData := efficiencyData tip ++ [point];
              totalCurationRew :=
                fadd (totalCurationRew tip) voterRewardValue;
              contributedValue :=
                fadd (contributedValue tip) voterContributedValue;
              totAuthor := totAuthor tip;
              scatter := Some (pushPoint sc point None) |}, None)
      end.

(** One iteration of the loop over the rows. *)
Definition process_reward (tip : Tip) (c : Cache) (reward : Reward)
    : Tip * Cache * option Exn :=
  let timeSec := time reward in
  if negb (truthy timeSec) then (tip, c, None)
  else
    match histPost_loop 5 c (r_author reward) (r_permlink reward)
            timeSec None [] with
    | (c1, _, inl e) => (tip, c1, Some e)
    | (c1, _, inr None) => (tip, c1, None)
    | (c1, _, inr (Some histPost)) =>
        let '(tip1, e) := score_reward tip reward histPost in
        (tip1, c1, e)
    end.

Fixpoint process_rows (tip : Tip) (c : Cache) (rows : list Reward)
    : Tip * Cache * option Exn :=
  match rows with
  | [] => (tip, c, None)
  | reward :: rest =>
      match process_reward tip c reward with
      | (tip1, c1, Some e) => (tip1, c1, Some e)
      | (tip1, c1, None) => process_rows tip1 c1 rest
      end
  end.

Definition set_scatter (tip : Tip) (sc : option Scatter) : Tip :=
  {| user := user tip; post_author := post_author tip;
     post_createdMs := post_createdMs tip; vote := vote tip;
     days := days tip; efficiencyData := efficiencyData tip;
     totalCurationRew := totalCurationRew tip;
     contributedValue := contributedValue tip;
     totAuthor := totAuthor tip; scatter := sc |}.

(** [prefetchEfficiencyData()] *)
Definition prefetchEfficiencyData (tip : Tip) (c : Cache)
    : Tip * Cache * Completion :=
  match scatter tip with
  | None => (tip, c, Returned)
  | Some _ =>
      let res := getHistoricCurationRewards
                   (user tip) (post_createdMs tip) (days tip) in
      let rows := match res with Some rows => rows | None => [] end in
      match process_rows tip c rows with
      | (tip1, c1, Some e) => (tip1, c1, Threw e)
      | (tip1, c1, None) =>
          match scatter tip1 with
          | None => (tip1, c1, Threw TypeError)
          | Some sc =>
              (set_scatter tip1 (Some (addStatsLines (finalize sc))),
               c1, Returned)
          end
      end
  end.

(** [getTipEfficiency(tips)]: the tips run one after the other on the
    cache they share; a run that rejects ends the loop. *)
Fixpoint getTipEfficiency (tips : list Tip) (c : Cache)
    : list Tip * Cache * Completion :=
  match tips with
  | [] => ([], c, Returned)
  | tip :: rest =>
      match prefetchEfficiencyData tip c with
      | (tip1, c1, Threw e) => (tip1 :: rest, c1, Threw e)
      | (tip1, c1, Returned) =>
          let '(rest1, c2, r) := getTipEfficiency rest c1 in
          (tip1 :: rest1, c2, r)
      end
  end.

End WithServices.

End VoterTip.

(* ===================================================================== *)
(** ** Label tables by language *)
(* ===================================================================== *)

Module Lang.

(** A [switch] over string labels without a [default] clause: the
    clauses are tried in order; from the first whose label is strictly
    equal to the scrutinee on, the bodies run one after the other until
    one ends with [break]. *)
Fixpoint run_switch {S : Type} (clauses : list (string * (S -> S) * bool))
    (x : string) (entered : bool) (st : S) : S :=
  match clauses with
  | [] => st
  | (label, body, break) :: rest =>
      if entered || String.eqb x label
      then if break then body st else run_switch rest x true (body st)
      else run_switch rest x false st
  end.

Record MetricsLabels : Type := mkMetrics {
  m_rewards : string;
  m_contributed : string;
  m_received : string;
  m_author : string
}.

(** The clauses of the [switch] of [getEfficiencyMetricsInLang]; every
    clause assigns every label. *)
Definition metrics_clauses
    : list (string * (MetricsLabels -> MetricsLabels) * bool) :=
  [
   ("fr",
    (fun _ =>
     {| m_rewards := "Récompenses";
       m_contributed := "A contribué";
       m_received := "Reçu";
       m_author := "Auteur" |}),
    true);
   ("it",
    (fun _ =>
     {| m_rewards := "Ricompense";
       m_contributed := "Contribuito";
       m_received := "Ricevuto";
       m_author := "Autore" |}),
    true);
   ("ja",
    (fun _ =>
     {| m_rewards := "報酬";
       m_contributed := "寄稿";
       m_received := "受け取った";
       m_author := "著者" |}),
    true);
   ("ko",
    (fun _ =>
     {| m_rewards := "보상";
       m_contributed := "기여했다";
       m_received := "받았다";
       m_author := "작가" |}),
    true);
   ("pl",
    (fun _ =>
     {| m_rewards := "Nagrody";
       m_contributed := "Wkład";
       m_received := "Otrzymane";
       m_author := "Autor" |}),
    true);
   ("ru",
    (fun _ =>
     {| m_rewards := "Награды";
       m_contributed := "Внесено";
       m_received := "Полученный";
       m_author := "Автор" |}),
    true);
   ("es",
    (fun _ =>
     {| m_rewards := "Recompensas";
       m_contributed := "Contribuyó";
       m_received := "Recibido";
       m_author := "Autor" |}),
    true);
   ("uk",
    (fun _ =>
     {| m_rewards := "Нагороди";
       m_contributed := "Внесок";
       m_received := "Отримано";
       m_author := "Автор" |}),
    true)
  ].

(** [getEfficiencyMetricsInLang(user_lang)] *)
Definition getEfficiencyMetricsInLang (user_lang : string) : MetricsLabels :=
  run_switch metrics_clauses user_lang false
    {| m_rewards := "Rewards";
       m_contributed := "Contributed";
       m_received := "Received";
       m_author := "Author" |}.

Record GraphLabels : Type := mkGraph {
  g_date : string;
  g_efficiency : string;
  g_weightedEff : string;
  g_voterReceived : string;
  g_totalValue : string;
  g_mean : string;
  g_median : string
}.

(** The clauses of the [switch] of [getEfficiencyGraphInLang]; every
    clause assigns every label. *)
Definition graph_clauses
    : list (string * (GraphLabels -> GraphLabels) * bool) :=
  [
   ("fr",
    (fun _ =>
     {| g_date := "Date";
       g_efficiency := "Efficacité";
       g_weightedEff := "Pondéré Eff";
       g_voterReceived := "Électeur Reçu";
       g_totalValue := "Valeur Totale";
       g_mean := "Moyenne";
       g_median := "Médiane" |}),
    true);
   ("it",
    (fun _ =>
     {| g_date := "Data";
       g_efficiency := "Efficienza";
       g_weightedEff := "Eff Ponderata";
       g_voterReceived := "Elettore Ricevuto";
       g_totalValue := "Valore Totale";
       g_mean := "Media";
       g_median := "Mediana" |}),
    false);
   ("ja",
    (fun _ =>
     {| g_date := "日付";
       g_efficiency := "効率";
       g_weightedEff := "加重効率";
       g_voterReceived := "投票者受付";
       g_totalValue := "合計金額";
       g_mean := "平均";
       g_median := "中央値" |}),
    true);
   ("ko",
    (fun _ =>
     {| g_date := "날짜";
       g_efficiency := "능률";
       g_weightedEff := "가중 효율성";
       g_voterReceived := "유권자 접수";
       g_totalValue := "총 가치";
       g_mean := "평균";
       g_median := "중앙값" |}),
    true);
   ("pl",
    (fun _ =>
     {| g_date := "Data";
       g_efficiency := "Efektywność";
       g_weightedEff := "Ważona Ef";
       g_voterReceived := "Wyborca ​​Otrzymał";
       g_totalValue := "Wartość Całkowita";
       g_mean := "Średnia";
       g_median := "Mediana" |}),
    true);
   ("ru",
    (fun _ =>
     {| g_date := "Дата";
       g_efficiency := "Эффективность";
       g_weightedEff := "Взвешенная Эфф";
       g_voterReceived := "Избиратели Полученный";
       g_totalValue := "Общая стоимость";
       g_mean := "Среднее";
       g_median := "Медиана" |}),
    true);
   ("es",
    (fun _ =>
     {| g_date := "Fecha";
       g_efficiency := "Eficiencia";
       g_weightedEff := "Ef Ponderada";
       g_voterReceived := "Votante Recibido";
       g_totalValue := "Valor Total";
       g_mean := "Media";
       g_median := "Mediana" |}),
    true);
   ("uk",
    (fun _ =>
     {| g_date := "Дата";
       g_efficiency := "Ефективність";
       g_weightedEff := "Зважена Еф";
       g_voterReceived := "Отримано виборця";
       g_totalValue := "Загальна вартість";
       g_mean := "Середній";
       g_median := "Медіана" |}),
    true)
  ].

(** [getEfficiencyGraphInLang(user_lang)] *)
Definition getEfficiencyGraphInLang (user_lang : string) : GraphLabels :=
  run_switch graph_clauses user_lang false
    {| g_date := "Date";
       g_efficiency := "Efficiency";
       g_weightedEff := "Weighted Eff";
       g_voterReceived := "Voter Received";
       g_totalValue := "Post Total";
       g_mean := "Mean";
       g_median := "Median" |}.

Record ToggleLabels : Type := mkToggle {
  t_feather : string;
  t_dumbbell : string
}.

(** The clauses of the [switch] of [getEfficiencyToggle]; every clause
    assigns every label. *)
Definition toggle_clauses
    : list (string * (ToggleLabels -> ToggleLabels) * bool) :=
  [
   ("fr",
    (fun _ =>
     {| t_feather := "Efficacité (cliquer pour pondérée)";
       t_dumbbell := "Pondéré (cliquez pour Efficacité)" |}),
    true);
   ("it",
    (fun _ =>
     {| t_feather := "Efficienza (clicca per Ponderato)";
       t_dumbbell := "Ponderato (clicca per Efficienza)" |}),
    true);
   ("ja",
    (fun _ =>
     {| t_feather := "効率（クリックすると重み付けされます）";
       t_dumbbell := "加重（効率についてはクリック）" |}),
    true);
   ("ko",
    (fun _ =>
     {| t_feather := "효율성(가중치를 보려면 클릭하세요)";
       t_dumbbell := "가중치 적용(효율성을 위해 클릭)" |}),
    false);
   ("pl",
    (fun _ =>
     {| t_feather := "Efektywność (kliknij, aby zobaczyć Ważony)";
       t_dumbbell := "Ważony (kliknij, aby zobaczyć Efektywność)" |}),
    false);
   ("ru",
    (fun _ =>
     {| t_feather := "Эффективность (нажмите, чтобы увидеть взвешенную)";
       t_dumbbell := "Взвешенный (нажмите, чтобы увидеть эффективность)" |}),
    false);
   ("es",
    (fun _ =>
     {| t_feather := "Eficiencia (haga clic para Ponderado)";
       t_dumbbell := "Ponderado (haga clic para Eficiencia)" |}),
    false);
   ("uk",
    (fun _ =>
     {| t_feather := "Ефективність (натисніть для Зважена)";
       t_dumbbell := "Зважена (натисніть для визначення Ефективність)" |}),
    false)
  ].

(** [getEfficiencyToggle(user_lang)] *)
Definition getEfficiencyToggle (user_lang : string) : ToggleLabels :=
  run_switch toggle_clauses user_lang false
    {| t_feather := "Efficiency (click for Weighted Efficiency)";
       t_dumbbell := "Weighted Efficiency (click for Efficiency)" |}.

(** [new UnsupportedLanguageError(locale)] *)
Inductive LangError : Type :=
  | UnsupportedLanguageError (locale : string).

(** [getBeneficiaryInLanguage(user_lang)]: the text, or the error
    thrown for a language that is not accounted for. *)
Definition getBeneficiaryInLanguage (user_lang : string)
    : string + LangError :=
  if String.eqb user_lang "en" then inl " - Beneficiaries "
  else if String.eqb user_lang "fr" then inl " - Bénéficiaires "
  else if String.eqb user_lang "it" then inl " - Beneficiari "
  else if String.eqb user_lang "ja" then inl " - 受益者 "
  else if String.eqb user_lang "ko" then inl " - 수혜자 "
  else if String.eqb user_lang "pl" then inl " - Beneficjenci "
  else if String.eqb user_lang "ru" then inl " - Бенефициары "
  else if String.eqb user_lang "es" then inl " - Beneficiarios "
  else if String.eqb user_lang "uk" then inl " - Бенефіціари "
  else inr (UnsupportedLanguageError user_lang).

End Lang.

(* ===================================================================== *)
(** ** Time units of the vote graphs (votes.js) *)
(* ===================================================================== *)

Module VoteTimes.

(** The callback of the [reduce] in [getTimeUnit]:
    [voteTime > latest ? voteTime : latest] *)
Definition later (latest voteTime : number) : number :=
  if gt voteTime latest then voteTime else latest.

(** [latestVoteTime]: the [reduce] over the votes, started at the
    creation time.  Times are the [getTime()] of the dates, NaN for an
    invalid date. *)
Definition latestVoteTime (creation : number) (voteTimes : list number)
    : number :=
  foldl later creation voteTimes.

(** [getTimeUnit(postCreationTime, activeVotes)] *)
Definition getTimeUnit (creation : number) (voteTimes : list number)
    : string :=
  let elapsedMs := sub (latestVoteTime creation voteTimes) creation in
  if lt elapsedMs (ofZ (2 * 60 * 60 * 1000)) then "minutes"
  else if lt elapsedMs (ofZ (2 * 24 * 60 * 60 * 1000)) then "hours"
  else "days".

Section Printing.

(** The conversions of a number to text are not modelled:
    [toFixed1 x] stands for [x.toFixed(1)] and [show x] for the text a
    template literal puts for [x]. *)
Variable toFixed1 : number -> string.
Variable show : number -> string.

(** [formatTimeLabel(elapsedMs, timeUnit)] *)
Definition formatTimeLabel (elapsedMs : number) (timeUnit : string)
    : string :=
  if String.eqb timeUnit "minutes"
  then show (Math_floor (div elapsedMs (ofZ (60 * 1000)))) +:+ " min"
  else if String.eqb timeUnit "hours"
  then toFixed1 (div elapsedMs (ofZ (60 * 60 * 1000))) +:+ " hr"
  else toFixed1 (div elapsedMs (ofZ (24 * 60 * 60 * 1000))) +:+ " d".

(** [formatScaledTimeLabel(elapsedMs, maxElapsedMs)] *)
Definition formatScaledTimeLabel (elapsedMs maxElapsedMs : number)
    : string :=
  if lt maxElapsedMs (ofZ (2 * 60 * 60 * 1000))
  then show (Math_floor (div elapsedMs (ofZ (60 * 1000)))) +:+ " min"
  else if lt maxElapsedMs (ofZ (2 * 24 * 60 * 60 * 1000))
  then toFixed1 (div elapsedMs (ofZ (60 * 60 * 1000))) +:+ " hr"
  else toFixed1 (div elapsedMs (ofZ (24 * 60 * 60 * 1000))) +:+ " d".

End Printing.

End VoteTimes.

(* ===================================================================== *)
(** ** Facts about JavaScript numbers *)
(* ===================================================================== *)

(** Arithmetic facts used on the finite, positive quantities of the
    efficiency computation. *)
Module JsFacts.

Lemma Qround_comp q1 q2 : q1 == q2 -> Qround q1 = Qround q2.
Proof. intros H. unfold Qround. rewrite H. reflexivity. Qed.

Lemma le_zero_pos q : 0 < q -> le (Fin q) (ofZ 0) = false.
Proof.
  intros H. simpl. destruct (Qle_bool q (inject_Z 0)) eqn:E; [|reflexivity].
  apply Qle_bool_imp_le in E. exfalso. apply (Qlt_not_le _ _ H). exact E.
Qed.

Lemma Qeq_bool_pos q : 0 < q -> Qeq_bool q 0 = false.
Proof.
  intros H. destruct (Qeq_bool q 0) eqn:E; [|reflexivity].
  apply Qeq_bool_eq in E. rewrite E in H. exfalso. apply (Qlt_irrefl _ H).
Qed.

Lemma div_pos a b : 0 < b -> div (Fin a) (Fin b) = Fin (a / b).
Proof. intros H. simpl. rewrite (Qeq_bool_pos b H). reflexivity. Qed.

Lemma Qdiv_pos a b : 0 < a -> 0 < b -> 0 < a / b.
Proof.
  intros Ha Hb. unfold Qdiv. apply Qmult_lt_0_compat; [exact Ha|].
  apply Qinv_lt_0_compat, Hb.
Qed.

Lemma gt_zero_le n : gt n (ofZ 0) = true -> le n (ofZ 0) = false.
Proof.
  destruct n as [q| | |]; cbn; intros H; try discriminate; try reflexivity.
  unfold Qltb in H. destruct (Qle_bool q (inject_Z 0)); [discriminate|].
  reflexivity.
Qed.

Lemma gt_zero_or_zero n : gt n (ofZ 0) = true -> or_zero n = n.
Proof.
  destruct n as [q| | |]; cbn; intros H; try discriminate; try reflexivity.
  unfold or_zero, truthy. destruct (Qeq_bool q 0) eqn:E; [|reflexivity].
  apply Qeq_bool_eq in E. unfold Qltb in H.
  assert (Hle : Qle_bool q (inject_Z 0) = true).
  { apply Qle_bool_iff. rewrite E. apply Qle_refl. }
  rewrite Hle in H. discriminate.
Qed.

(** *** Rounding to a double *)

Lemma pow2_Qpower e : pow2 e == 2 ^ e.
Proof.
  unfold pow2. destruct (0 <=? e)%Z eqn:E.
  - apply Z.leb_le in E. rewrite Zpower_Qpower by exact E. reflexivity.
  - apply Z.leb_gt in E. rewrite Zpower_Qpower by lia.
    rewrite <- Qpower_opp. rewrite Z.opp_involutive. reflexivity.
Qed.

Lemma pow2_add a b : pow2 (a + b) == pow2 a * pow2 b.
Proof. rewrite !pow2_Qpower. apply Qpower_plus. discriminate. Qed.

Lemma pow2_pos e : 0 < pow2 e.
Proof. rewrite pow2_Qpower. apply Qpower_0_lt. reflexivity. Qed.

Lemma pow2_nonneg_Z a : (0 <= a)%Z -> pow2 a = inject_Z (2 ^ a).
Proof. intros H. unfold pow2. apply Z.leb_le in H. rewrite H. reflexivity. Qed.

(** No integer is nearer to [q] than [round_half_even q]. *)
Lemma round_half_even_nearest q n :
  Qabs (inject_Z (round_half_even q) - q) <= Qabs (inject_Z n - q).
Proof.
  pose proof (Qfloor_le q) as Hlo. pose proof (Qlt_floor q) as Hhi.
  rewrite inject_Z_plus in Hhi. change (inject_Z 1) with 1 in Hhi.
  assert (Hn : inject_Z n <= inject_Z (Qfloor q)
               \/ inject_Z (Qfloor q) + 1 <= inject_Z n).
  { destruct (Z_le_gt_dec n (Qfloor q)) as [H|H].
    - left. rewrite <- Zle_Qle. exact H.
    - right. change 1 with (inject_Z 1). rewrite <- inject_Z_plus, <- Zle_Qle.
      lia. }
  unfold round_half_even.
  destruct (Qcompare (q - inject_Z (Qfloor q)) (1 # 2)) eqn:E.
  - apply Qeq_alt in E.
    destruct (Z.even (Qfloor q)); rewrite ?inject_Z_plus;
      change (inject_Z 1) with 1;
      apply Qabs_case; intros; apply Qabs_case; intros; lra.
  - apply Qlt_alt in E.
    apply Qabs_case; intros; apply Qabs_case; intros; lra.
  - apply Qgt_alt in E. rewrite inject_Z_plus. change (inject_Z 1) with 1.
    apply Qabs_case; intros; apply Qabs_case; intros; lra.
Qed.

(** [ilog2 q] is the exponent of the power of two at or below [q]. *)
Lemma ilog2_spec q : 0 < q -> pow2 (ilog2 q) <= q /\ q < pow2 (ilog2 q + 1).
Proof.
  intros Hq. destruct q as [n d].
  assert (Hn : (0 < n)%Z) by (unfold Qlt in Hq; cbn in Hq; lia).
  pose proof (Z.log2_spec n Hn) as [Ha0 Ha1].
  pose proof (Z.log2_spec (Zpos d) (Pos2Z.is_pos d)) as [Hb0 Hb1].
  pose proof (Z.log2_nonneg n) as Ha.
  pose proof (Z.log2_nonneg (Zpos d)) as Hb.
  unfold ilog2. cbn [Qnum Qden].
  set (a := Z.log2 n) in *. set (b := Z.log2 (Zpos d)) in *.
  set (q := n # d) in *.
  assert (HN : q * inject_Z (Zpos d) == inject_Z n).
  { unfold q, Qeq, Qmult, inject_Z. cbn. lia. }
  assert (HD : 0 < inject_Z (Zpos d)) by reflexivity.
  rewrite Zle_Qle in Ha0, Hb0. rewrite Zlt_Qlt in Ha1, Hb1.
  rewrite <- pow2_nonneg_Z in Ha0, Hb0, Ha1, Hb1 by lia.
  pose proof (pow2_pos b) as Pb. pose proof (pow2_pos (Z.succ b)) as Pb1.
  destruct (Qle_bool (pow2 (a - b)) q) eqn:E.
  - split; [apply Qle_bool_iff, E|].
    assert (Hk : pow2 (a - b + 1) * pow2 b == pow2 (Z.succ a)).
    { rewrite <- pow2_add. replace (a - b + 1 + b)%Z with (Z.succ a) by lia.
      reflexivity. }
    set (P := pow2 (a - b + 1)) in *.
    set (N := inject_Z n) in *. set (D := inject_Z (Zpos d)) in *.
    set (B := pow2 b) in *. set (A := pow2 (Z.succ a)) in *.
    apply Qnot_le_lt. intros Hc. nra.
  - assert (E' : q < pow2 (a - b)).
    { apply Qnot_le_lt. intros Hc. apply Qle_bool_iff in Hc. congruence. }
    replace (a - b - 1 + 1)%Z with (a - b)%Z by lia.
    split; [|exact E'].
    assert (Hk : pow2 (a - b - 1) * pow2 (Z.succ b) == pow2 a).
    { rewrite <- pow2_add. replace (a - b - 1 + Z.succ b)%Z with a by lia.
      reflexivity. }
    pose proof (pow2_pos (a - b - 1)) as Pk.
    set (P := pow2 (a - b - 1)) in *.
    set (N := inject_Z n) in *. set (D := inject_Z (Zpos d)) in *.
    set (B := pow2 (Z.succ b)) in *. set (A := pow2 a) in *.
    apply Qnot_lt_le. intros Hc. nra.
Qed.

(** The double of a positive [q] is a multiple of [2 ^ exponent q], and
    no multiple of it is nearer to [q]. *)
Lemma double_pos_nearest q v n :
  0 < q -> double_pos q = Fin v ->
  Qabs (v - q) <= Qabs (inject_Z n * pow2 (exponent q) - q).
Proof.
  intros Hq. unfold double_pos.
  set (e := exponent q). set (v0 := Qred _).
  assert (Hv0 : v0 == inject_Z (round_half_even (q / pow2 e)) * pow2 e)
    by apply Qred_correct.
  clearbody v0.
  destruct (Qle_bool _ _); [discriminate|]. intros [= <-].
  rewrite Hv0.
  pose proof (pow2_pos e) as Pe.
  assert (H : forall k, inject_Z k * pow2 e - q
                        == (inject_Z k - q / pow2 e) * pow2 e).
  { intros k. field. intros Hc. rewrite Hc in Pe. apply (Qlt_irrefl _ Pe). }
  rewrite (H n), H, !Qabs_Qmult.
  apply Qmult_le_compat_r; [apply round_half_even_nearest|apply Qabs_nonneg].
Qed.

(** Its significand has at most 53 bits. *)
Lemma double_pos_significand q :
  0 < q -> (0 <= round_half_even (q / pow2 (exponent q)) <= 2 ^ 53)%Z.
Proof.
  intros Hq. destruct (ilog2_spec q Hq) as [_ Hhi].
  unfold exponent. set (e := Z.max (ilog2 q - 52) (-1074)).
  pose proof (pow2_pos e) as Pe.
  assert (Hx0 : 0 <= q / pow2 e).
  { unfold Qdiv. apply Qmult_le_0_compat; [apply Qlt_le_weak, Hq|].
    apply Qlt_le_weak, Qinv_lt_0_compat, Pe. }
  assert (Hx1 : q / pow2 e < inject_Z (2 ^ 53)).
  { apply Qlt_shift_div_r; [exact Pe|].
    rewrite <- (pow2_nonneg_Z 53) by lia. rewrite <- pow2_add.
    eapply Qlt_le_trans; [exact Hhi|].
    rewrite !pow2_Qpower. apply Qpower_le_compat_l; [lia|discriminate]. }
  assert (Hf0 : (0 <= Qfloor (q / pow2 e))%Z)
    by (change 0%Z with (Qfloor 0); apply Qfloor_resp_le, Hx0).
  assert (Hf1 : (Qfloor (q / pow2 e) < 2 ^ 53)%Z).
  { rewrite Zlt_Qlt. eapply Qle_lt_trans; [apply Qfloor_le|exact Hx1]. }
  unfold round_half_even.
  destruct (Qcompare _ _); [destruct (Z.even _)| |]; lia.
Qed.

(** Rounding is symmetric about zero. *)
Lemma to_double_opp q : to_double (- q) = neg (to_double q).
Proof.
  assert (Hoo : - - q = q).
  { destruct q as [n d]. unfold Qopp. cbn [Qnum Qden].
    rewrite Z.opp_involutive. reflexivity. }
  unfold to_double. destruct (Qcompare q 0) eqn:E.
  - apply Qeq_alt in E.
    assert (E' : Qcompare (- q) 0 = Eq)
      by (apply (proj1 (Qeq_alt (- q) 0)); rewrite E; reflexivity).
    rewrite E'. reflexivity.
  - assert (Hq : q < 0) by exact (proj2 (Qlt_alt q 0) E).
    assert (E' : Qcompare (- q) 0 = Gt)
      by (apply (proj1 (Qgt_alt (- q) 0)); lra).
    rewrite E'.
    destruct (double_pos (- q)) as [v| | |]; cbn [neg]; try reflexivity.
    assert (Hv : - - v = v).
    { destruct v as [n d]. unfold Qopp. cbn [Qnum Qden].
      rewrite Z.opp_involutive. reflexivity. }
    rewrite Hv. reflexivity.
  - assert (Hq : 0 < q) by exact (proj2 (Qgt_alt q 0) E).
    assert (E' : Qcompare (- q) 0 = Lt)
      by (apply (proj1 (Qlt_alt (- q) 0)); lra).
    rewrite E', Hoo. reflexivity.
Qed.

(** The doubles of some decimal fractions, of the largest finite
    double and of the least subnormal. *)
Example to_double_tenth :
  to_double (1 # 10) = Fin (3602879701896397 # 36028797018963968).
Proof. vm_compute. reflexivity. Qed.

Example to_double_third :
  to_double (1 # 3) = Fin (6004799503160661 # 18014398509481984).
Proof. vm_compute. reflexivity. Qed.

Example to_double_integer :
  to_double (- 9007199254740993) = Fin (- 9007199254740992).
Proof. vm_compute. reflexivity. Qed.

Example to_double_overflow :
  to_double (pow2 1024 - pow2 970) = PInf /\
  to_double (pow2 1024 - pow2 971) = Fin (Qred (pow2 1024 - pow2 971)).
Proof. split; vm_compute; reflexivity. Qed.

Example to_double_underflow :
  to_double (pow2 (-1075)) = Fin 0 /\
  to_double (3 * pow2 (-1075)) = Fin (Qred (pow2 (-1073))).
Proof. split; vm_compute; reflexivity. Qed.

Example timeClip_values :
  timeClip (Fin (3403 # 2)) = ofZ 1701 /\
  timeClip (Fin (- (3403 # 2))) = ofZ (- 1701) /\
  timeClip (ofZ 8640000000000000) = ofZ 8640000000000000 /\
  timeClip (ofZ 8640000000000001) = NaN /\
  timeClip PInf = NaN.
Proof. repeat split. Qed.

End JsFacts.

Import JsFacts.

(* ===================================================================== *)
(** ** Properties of the chart state machine *)
(* ===================================================================== *)

Module ScatterFacts.
Import EfficiencyScatter.

(** The projection of a stored raw point in a display mode, as the
    specification words it: [y = round(mode == WEIGHTED ? weightedEff :
    efficiency)]. *)
Definition project (weighted : bool) (p : RawPoint) : number :=
  Math_round (if weighted then weightedEff p else efficiency p).

(** The plotted point [pushPoint] builds from a raw point. *)
Definition to_data (weighted : bool) (p : RawPoint) : DataPoint :=
  {| pt_x := tsMs p; pt_y := project weighted p;
     pt_efficiency := efficiency p;
     pt_weightedEff := weightedEff p;
     pt_voterRewardValue := voterRewardValue p;
     pt_totalValue := totalValue p;
     pt_sameAuthor := sameAuthor p |}.

(** The states an instance can be in: built by the constructor, then
    driven by its public methods.  ([_applyModeToDataset] and
    [_rebuildFromRaw] have no caller, and the second would stop on the
    undefined [_refreshYScaleAndStats].) *)
Inductive reachable : Scatter -> Prop :=
  | reach_new a d m b : reachable (constructor a d m b)
  | reach_push s p pad : reachable s -> reachable (pushPoint s p pad)
  | reach_toggle s : reachable s -> reachable (toggleMode s)
  | reach_finalize s : reachable s -> reachable (finalize s)
  | reach_stats s : reachable s -> reachable (addStatsLines s).

(** *** What [addStatsLines] leaves alone *)

Lemma upsertLine_frame s id y c l :
  let s' := _upsertLineDataset s id y c l in
  points s' = points s /\ _rawPoints s' = _rawPoints s /\
  showWeighted s' = showWeighted s /\ _minPointTs s' = _minPointTs s /\
  x_min s' = x_min s /\ x_max s' = x_max s /\ y_max s' = y_max s /\
  finalized s' = finalized s /\ startMs s' = startMs s.
Proof.
  unfold _upsertLineDataset.
  destruct y as [y|]; [|tauto].
  destruct (isFinite y); simpl; tauto.
Qed.

Lemma addStatsLines_frame s :
  let s' := addStatsLines s in
  points s' = points s /\ _rawPoints s' = _rawPoints s /\
  showWeighted s' = showWeighted s /\ _minPointTs s' = _minPointTs s /\
  x_min s' = x_min s /\ x_max s' = x_max s /\
  finalized s' = finalized s /\ startMs s' = startMs s.
Proof.
  unfold addStatsLines.
  destruct (finalized s) eqn:Hf; [|simpl; tauto].
  destruct (_stats s) as [mean median].
  set (s1 := if truthy_opt mean then _ else s).
  set (s2 := if truthy_opt median then _ else s1).
  assert (H1 : points s1 = points s /\ _rawPoints s1 = _rawPoints s /\
               showWeighted s1 = showWeighted s /\
               _minPointTs s1 = _minPointTs s /\
               x_min s1 = x_min s /\ x_max s1 = x_max s /\
               finalized s1 = finalized s /\ startMs s1 = startMs s).
  { subst s1. destruct (truthy_opt mean); [|tauto].
    pose proof (upsertLine_frame s "mean-line" mean
                  "rgba(107,114,128,0.8)" "Mean") as H.
    simpl in H. tauto. }
  assert (H2 : points s2 = points s /\ _rawPoints s2 = _rawPoints s /\
               showWeighted s2 = showWeighted s /\
               _minPointTs s2 = _minPointTs s /\
               x_min s2 = x_min s /\ x_max s2 = x_max s /\
               finalized s2 = finalized s /\ startMs s2 = startMs s).
  { subst s2. destruct (truthy_opt median); [|exact H1].
    pose proof (upsertLine_frame s1 "median-line" median
                  "rgba(55,65,81,0.9)" "Median") as H.
    simpl in H.
    destruct H1 as (-> & -> & -> & -> & -> & -> & -> & ->) in H |- *.
    tauto. }
  simpl.
  destruct (isFinite _); simpl; [|rewrite Hf in H2; tauto].
  rewrite Hf in H2. tauto.
Qed.

(** *** The plotted points are the projection of the raw points *)

Lemma remap_to_data w w' p : remap w' (to_data w p) = to_data w' p.
Proof. reflexivity. Qed.

Lemma points_are_projected s :
  reachable s -> points s = map (to_data (showWeighted s)) (_rawPoints s).
Proof.
  induction 1 as [a d m b|s p pad _ IH|s _ IH|s _ IH|s _ IH].
  - reflexivity.
  - unfold pushPoint.
    destruct (negb (isFinite (tsMs p)) || negb (isFinite (efficiency p)));
      [exact IH|].
    simpl. rewrite IH, map_app. reflexivity.
  - unfold toggleMode.
    match goal with |- context [addStatsLines ?t] => set (t0 := t) end.
    destruct (addStatsLines_frame t0) as (Hp & Hr & Hw & _).
    simpl in Hp, Hr, Hw. rewrite Hp, Hr, Hw.
    subst t0; simpl. rewrite IH, map_map. reflexivity.
  - exact IH.
  - destruct (addStatsLines_frame s) as (Hp & Hr & Hw & _).
    simpl in Hp, Hr, Hw. rewrite Hp, Hr, Hw. exact IH.
Qed.

Lemma toggleMode_frame s :
  showWeighted (toggleMode s) = negb (showWeighted s) /\
  _rawPoints (toggleMode s) = _rawPoints s /\
  _minPointTs (toggleMode s) = _minPointTs s /\
  x_min (toggleMode s) = x_min s /\ startMs (toggleMode s) = startMs s.
Proof.
  unfold toggleMode.
  match goal with |- context [addStatsLines ?t] => set (t0 := t) end.
  destruct (addStatsLines_frame t0) as (_ & Hr & Hw & Hm & Hx & _ & _ & Hs).
  simpl in Hr, Hw, Hm, Hx, Hs. rewrite Hr, Hw, Hm, Hx, Hs. tauto.
Qed.

(** C7. Two mode toggles in a row bring back the display mode and the
    projected y of every stored raw point: the plotted points are again
    the projection, in the original mode, of [_rawPoints], which the
    toggles leave untouched. *)
Theorem toggleMode_round_trip (s : Scatter) :
  reachable s ->
  let s2 := toggleMode (toggleMode s) in
  showWeighted s2 = showWeighted s /\
  _rawPoints s2 = _rawPoints s /\
  points s2 = points s /\
  map pt_y (points s2) = map (project (showWeighted s)) (_rawPoints s).
Proof.
  intros Hs s2.
  assert (Hw : showWeighted s2 = showWeighted s).
  { subst s2. destruct (toggleMode_frame (toggleMode s)) as (-> & _).
    destruct (toggleMode_frame s) as (-> & _). apply Bool.negb_involutive. }
  assert (Hr : _rawPoints s2 = _rawPoints s).
  { subst s2. destruct (toggleMode_frame (toggleMode s)) as (_ & -> & _).
    destruct (toggleMode_frame s) as (_ & -> & _). reflexivity. }
  assert (Hp : points s2 = map (to_data (showWeighted s)) (_rawPoints s)).
  { rewrite <- Hw, <- Hr. apply points_are_projected.
    subst s2. do 2 apply reach_toggle. exact Hs. }
  repeat split; try assumption.
  - rewrite Hp. symmetry. apply points_are_projected, Hs.
  - rewrite Hp, map_map. reflexivity.
Qed.

(** A chart in use: two points streamed in RAW mode, the second with a
    weighted value off its raw one. *)
Definition chart_fresh : Scatter :=
  constructor (ofZ 1700000000000) None (ofZ 1699920000000) None.

Definition chart_two_points : Scatter :=
  pushPoint
    (pushPoint chart_fresh
       (mkRaw (ofZ 1699400000000) (ofZ 50) (ofZ 50) (ofZ 2) (ofZ 50) false)
       None)
    (mkRaw (ofZ 1699500000000) (ofZ 120) (ofZ 30) (ofZ 1) (ofZ 10) true)
    None.

Lemma toggleMode_round_trip_witness :
  reachable chart_two_points /\
  map pt_y (points (toggleMode (toggleMode chart_two_points)))
  = map (project false) (_rawPoints chart_two_points).
Proof.
  assert (H : reachable chart_two_points)
    by (do 2 apply reach_push; apply reach_new).
  split; [exact H|].
  exact (proj2 (proj2 (proj2 (toggleMode_round_trip chart_two_points H)))).
Defined.

(** *** The x-axis minimum *)

Lemma minPointTs_stays_minus_infinity s :
  reachable s -> _minPointTs s = NInf /\ x_min s = startMs s.
Proof.
  induction 1 as [a d m b|s p pad _ [IH1 IH2]|s _ [IH1 IH2]
                 |s _ IH|s _ [IH1 IH2]].
  - split; reflexivity.
  - unfold pushPoint.
    destruct (negb (isFinite (tsMs p)) || negb (isFinite (efficiency p)));
      [tauto|].
    simpl. rewrite IH1.
    assert (Hlt : lt (tsMs p) NInf = false) by (destruct (tsMs p); reflexivity).
    rewrite Hlt. tauto.
  - destruct (toggleMode_frame s) as (_ & _ & -> & -> & ->). tauto.
  - exact IH.
  - destruct (addStatsLines_frame s) as (_ & _ & _ & -> & -> & _ & _ & ->).
    tauto.
Qed.

(** On every chart the constructor can build, [pushPoint] leaves the
    x-axis minimum where it is, however early the point. *)
Lemma pushPoint_never_moves_x_min s p pad :
  reachable s -> x_min (pushPoint s p pad) = x_min s.
Proof.
  intros Hs.
  destruct (minPointTs_stays_minus_infinity _ (reach_push s p pad Hs))
    as [_ H1].
  destruct (minPointTs_stays_minus_infinity _ Hs) as [_ H2].
  rewrite H1, H2. unfold pushPoint.
  destruct (negb (isFinite (tsMs p)) || negb (isFinite (efficiency p)));
    reflexivity.
Qed.

(** C4. A point one second after the epoch, far before the window of a
    fresh chart, is accepted and plotted, and the x-axis minimum does
    not move: [tsMs < this._minPointTs] compares with the [-Infinity]
    the constructor stored. *)
Example pushPoint_before_window_keeps_x_min :
  let p := mkRaw (ofZ 1000) (ofZ 50) (ofZ 50) (ofZ 2) (ofZ 50) false in
  let s' := pushPoint chart_fresh p None in
  lt (tsMs p) (x_min chart_fresh) = true /\
  map pt_x (points s') = [ofZ 1000] /\
  x_min s' = x_min chart_fresh /\
  lt (tsMs p) (x_min s') = true.
Proof. vm_compute. repeat split; reflexivity. Qed.

(** *** The y-axis maximum *)

(** Once the maximum is set to a non-zero number, an accepted point
    with finite y and pad only moves it up, and at least to the
    candidate [ceil(y + pad)]. *)
Lemma pushPoint_y_max_expands s p pad m yv padv :
  y_max s = Some (Fin m) -> ~ m == 0 ->
  isFinite (tsMs p) = true -> isFinite (efficiency p) = true ->
  project (showWeighted s) p = Fin yv ->
  nullish pad (ofZ 5) = Fin padv ->
  exists m', y_max (pushPoint s p pad) = Some (Fin m') /\
             m <= m' /\ inject_Z (Qceiling (yv + padv)) <= m'.
Proof.
  intros Hm Hnz Ht He Hy Hpad.
  unfold pushPoint. rewrite Ht, He. simpl.
  unfold project in Hy. rewrite Hy, Hpad, Hm. simpl.
  assert (Hz : Qeq_bool m 0 = false).
  { destruct (Qeq_bool m 0) eqn:E; [|reflexivity].
    apply Qeq_bool_eq in E. contradiction. }
  rewrite Hz. simpl. unfold gt, lt, Qltb.
  destruct (Qle_bool (inject_Z (Qceiling (yv + padv))) m) eqn:E; simpl.
  - exists m. apply Qle_bool_imp_le in E. split; [reflexivity|].
    split; [apply Qle_refl|exact E].
  - exists (inject_Z (Qceiling (yv + padv))). split; [reflexivity|].
    split; [|apply Qle_refl].
    apply Qlt_le_weak, Qnot_le_lt. intros H.
    apply Qle_bool_iff in H. congruence.
Qed.

(** The candidate maximum [ceil(y + pad)] of a point. *)
Definition candidate (weighted : bool) (pp : RawPoint * option number)
    : number :=
  Math_ceil (add (project weighted (fst pp)) (nullish (snd pp) (ofZ 5))).

(** A stream of [pushPoint] calls. *)
Definition push_all (s : Scatter) (l : list (RawPoint * option number))
    : Scatter :=
  foldl (fun s pp => pushPoint s (fst pp) (snd pp)) s l.

(** An accepted point whose candidate maximum is a positive number [c]. *)
Definition lifts (weighted : bool) (pp : RawPoint * option number)
    (c : Q) : Prop :=
  isFinite (tsMs (fst pp)) = true /\
  isFinite (efficiency (fst pp)) = true /\
  candidate weighted pp = Fin c /\ 0 < c.

Lemma pushPoint_showWeighted s p pad :
  showWeighted (pushPoint s p pad) = showWeighted s.
Proof.
  unfold pushPoint.
  destruct (negb (isFinite (tsMs p)) || negb (isFinite (efficiency p)));
    reflexivity.
Qed.

Lemma pushPoint_y_max_step s pp c :
  lifts (showWeighted s) pp c ->
  y_max s = None \/ (exists m, y_max s = Some (Fin m) /\ 0 < m) ->
  exists m', y_max (pushPoint s (fst pp) (snd pp)) = Some (Fin m') /\
             0 < m' /\ c <= m' /\
             forall m, y_max s = Some (Fin m) -> m <= m'.
Proof.
  intros (Ht & He & Hc & Hpos) Hmax.
  unfold candidate, project in Hc.
  unfold pushPoint. rewrite Ht, He. simpl. rewrite Hc.
  destruct Hmax as [->|(m & -> & Hm)]; simpl.
  - exists c. repeat split; try assumption; [apply Qle_refl|discriminate].
  - rewrite (Qeq_bool_pos m Hm). simpl. unfold gt, lt, Qltb.
    destruct (Qle_bool c m) eqn:E; simpl.
    + apply Qle_bool_imp_le in E. exists m.
      repeat split; try assumption.
      intros m0 [= ->]. apply Qle_refl.
    + assert (Hlt : m < c).
      { apply Qnot_le_lt. intros H. apply Qle_bool_iff in H. congruence. }
      exists c. repeat split; try assumption; [apply Qle_refl|].
      intros m0 [= ->]. apply Qlt_le_weak, Hlt.
Qed.

(** On a chart whose y-axis maximum is unset or a positive number, a
    stream of accepted points with positive candidates (every point of
    the aggregator: y >= 0 and the default pad) leaves a maximum no
    lower than the one it found and than every candidate. *)
Lemma push_all_y_max_monotone l : forall s,
  l <> [] ->
  Forall (fun pp => exists c, lifts (showWeighted s) pp c) l ->
  y_max s = None \/ (exists m, y_max s = Some (Fin m) /\ 0 < m) ->
  exists m', y_max (push_all s l) = Some (Fin m') /\ 0 < m' /\
    (forall m, y_max s = Some (Fin m) -> m <= m') /\
    Forall (fun pp => forall c, candidate (showWeighted s) pp = Fin c ->
                                c <= m') l.
Proof.
  induction l as [|pp l IH]; intros s Hne Hall Hmax; [contradiction|].
  inversion Hall as [|? ? (c & Hc) Hall']; subst.
  destruct (pushPoint_y_max_step s pp c Hc Hmax)
    as (m1 & Hm1 & Hpos1 & Hc1 & Hold1).
  destruct l as [|pp2 l].
  - exists m1. simpl. repeat split; try assumption.
    constructor; [|constructor].
    intros c0 Hc0. destruct Hc as (_ & _ & Hcc & _).
    rewrite Hcc in Hc0. injection Hc0 as <-. exact Hc1.
  - destruct (IH (pushPoint s (fst pp) (snd pp)))
      as (m' & Hm' & Hpos & Hold & Hcs).
    + discriminate.
    + rewrite pushPoint_showWeighted. exact Hall'.
    + right. exists m1. split; assumption.
    + exists m'. split; [exact Hm'|]. split; [exact Hpos|].
      assert (Hm1m : m1 <= m') by (apply Hold, Hm1).
      split.
      * intros m Hm. eapply Qle_trans; [apply Hold1, Hm|exact Hm1m].
      * constructor.
        -- intros c0 Hc0. destruct Hc as (_ & _ & Hcc & _).
           rewrite Hcc in Hc0. injection Hc0 as <-.
           eapply Qle_trans; [exact Hc1|exact Hm1m].
        -- rewrite pushPoint_showWeighted in Hcs. exact Hcs.
Qed.

(** C6. Two points with finite y on a fresh chart, default pad: the
    first, y = -5, sets the maximum to [ceil(-5 + 5) = 0]; the second,
    y = -10, lowers it to [-5], below the candidate [0] already seen:
    [!yScale.max] holds of the maximum [0] as it does of an unset one. *)
Example pushPoint_y_max_decreases :
  let p1 := mkRaw (ofZ 1699400000000) (ofZ (-5)) (ofZ 0) (ofZ 0) (ofZ 0)
              false in
  let p2 := mkRaw (ofZ 1699500000000) (ofZ (-10)) (ofZ 0) (ofZ 0) (ofZ 0)
              false in
  let s1 := pushPoint chart_fresh p1 None in
  let s2 := pushPoint s1 p2 None in
  map pt_y (points s2) = [ofZ (-5); ofZ (-10)] /\
  y_max s1 = Some (ofZ 0) /\
  y_max s2 = Some (ofZ (-5)) /\
  Math_ceil (add (ofZ (-5)) (ofZ 5)) = ofZ 0.
Proof. vm_compute. repeat split; reflexivity. Qed.

(** *** Rejected points *)

(** The y value the active mode derives from a point. *)
Definition active_value (s : Scatter) (p : RawPoint) : number :=
  if showWeighted s then weightedEff p else efficiency p.

(** The guard of [pushPoint]: nothing at all changes when [tsMs] or
    [efficiency] is not a finite number, whichever mode is active. *)
Lemma pushPoint_rejects_non_finite (s : Scatter) (p : RawPoint)
    (pad : option number) :
  isFinite (tsMs p) = false \/ isFinite (efficiency p) = false ->
  pushPoint s p pad = s.
Proof.
  intros [H|H]; unfold pushPoint; rewrite H; simpl;
    [reflexivity|apply orb_true_r || (rewrite orb_true_r; reflexivity)].
Qed.

Example pushPoint_rejects_nan_efficiency :
  pushPoint chart_two_points
    (mkRaw (ofZ 1699600000000) NaN (ofZ 30) (ofZ 1) (ofZ 10) false) None
  = chart_two_points.
Proof.
  apply pushPoint_rejects_non_finite. right. reflexivity.
Qed.

(** C8. In WEIGHTED mode the guard still reads [efficiency]: a point
    whose [weightedEff], the value the active mode plots, is NaN while
    its [tsMs] and [efficiency] are finite is not rejected.  It is
    stored, plotted with y = NaN, and the unset y-axis maximum becomes
    NaN.  ([_getY], on the path that rebuilds the plot from the raw
    points, tests the active value and drops such a point.) *)
Example pushPoint_weighted_nan_accepted :
  let s := toggleMode chart_fresh in
  let p := mkRaw (ofZ 1699400000000) (ofZ 50) NaN (ofZ 2) (ofZ 50) false in
  showWeighted s = true /\
  isFinite (active_value s p) = false /\
  pushPoint s p None <> s /\
  _rawPoints (pushPoint s p None) = [p] /\
  map pt_y (points (pushPoint s p None)) = [NaN] /\
  y_max s = None /\ y_max (pushPoint s p None) = Some NaN.
Proof.
  vm_compute. repeat split; try reflexivity. discriminate.
Qed.

(** *** Mean and median *)

















Definition chart_10_20_30_40 : Scatter :=
  pushPoint
    (foldl (fun s e => pushPoint s
              (mkRaw (ofZ 1699400000000) (ofZ e) (ofZ e) (ofZ 1) (ofZ 1) false)
              None)
           chart_fresh [40; 10; 30]%Z)
    (mkRaw (ofZ 1699400000000) (ofZ 20) NaN (ofZ 1) (ofZ 1) false) None.




End ScatterFacts.

(* ===================================================================== *)
(** ** Properties of the cache and of the aggregator run *)
(* ===================================================================== *)

Module PipelineFacts.
Import EfficiencyScatter PostCache VoterTip.

Section Cache.

Variable resolver : nat -> string -> string -> number -> Settled.

Lemma getPostCached_hit c a p t f :
  postCache c !! keyFor a p = Some f ->
  getPostCached resolver c a p t = (c, f).
Proof. intros H. unfold getPostCached. rewrite H. reflexivity. Qed.

(** The cache never drops and never overwrites an entry. *)
Lemma getPostCached_keeps c a p t k f :
  postCache c !! k = Some f ->
  postCache (fst (getPostCached resolver c a p t)) !! k = Some f.
Proof.
  intros H. unfold getPostCached.
  destruct (postCache c !! keyFor a p) eqn:E; simpl; [exact H|].
  rewrite lookup_insert_ne; [exact H|]. congruence.
Qed.

Lemma run_calls_keeps l c k f :
  postCache c !! k = Some f ->
  postCache (run_calls resolver c l) !! k = Some f.
Proof.
  revert c. induction l as [|[[a p] t] l IH]; intros c H; simpl.
  - exact H.
  - apply IH, getPostCached_keeps, H.
Qed.

Lemma getPostCached_caches c a p t :
  postCache (fst (getPostCached resolver c a p t)) !! keyFor a p
  = Some (snd (getPostCached resolver c a p t)).
Proof.
  unfold getPostCached.
  destruct (postCache c !! keyFor a p) eqn:E; simpl; [exact E|].
  apply lookup_insert_eq.
Qed.

(** C5. Two calls of [getPostCached] for one (author, permlink), with
    any times and with any other calls in between, return one and the
    same promise; the second call starts no fetch-and-build block and
    leaves the cache as it found it.  When the key was not cached
    before the first call, that call starts the one block, with its own
    time argument, and the promise settles to what that block yields;
    when it was, the first call too returns the promise already there. *)
Theorem getPostCached_same_future (c : Cache) (a p : string)
    (t1 t2 : number) (between : list Call) :
  let c1 := fst (getPostCached resolver c a p t1) in
  let f1 := snd (getPostCached resolver c a p t1) in
  let c2 := run_calls resolver c1 between in
  getPostCached resolver c2 a p t2 = (c2, f1) /\
  match postCache c !! keyFor a p with
  | Some f0 => f1 = f0 /\ c1 = c
  | None =>
      pid f1 = length (begun c) /\
      begun_with f1 = (a, p, t1) /\
      settled f1 = resolver (length (begun c)) a p t1 /\
      begun c1 = begun c ++ [(a, p, t1)]
  end.
Proof.
  intros c1 f1 c2. split.
  - apply getPostCached_hit. subst c2. apply run_calls_keeps.
    subst c1 f1. apply getPostCached_caches.
  - subst c1 f1. unfold getPostCached.
    destruct (postCache c !! keyFor a p); simpl; tauto.
Qed.

(** The retry loop on a key whose cached promise is rejected. *)
Lemma histPost_loop_rejected c a p t f e :
  postCache c !! keyFor a p = Some f -> settled f = Rejected e ->
  forall n hist aw,
  histPost_loop resolver n c a p t hist aw =
    if is503 e then (c, aw ++ replicate n f, inr hist)
    else match n with
         | O => (c, aw, inr hist)
         | S _ => (c, aw ++ [f], inl (ReferenceError "error"))
         end.
Proof.
  intros Hc He n. induction n as [|n IH]; intros hist aw; simpl.
  - destruct (is503 e); [rewrite app_nil_r|]; reflexivity.
  - rewrite (getPostCached_hit _ _ _ _ _ Hc), He.
    destruct (is503 e) eqn:E; [|reflexivity].
    rewrite IH, <- app_assoc. reflexivity.
Qed.

(** C10. When the first fetch-and-build block for a key rejects, the
    rejected promise is what every later call for that key returns,
    whatever else the cache served in between and whatever a new block
    would have yielded; the retry loop of an event with that key only
    ever awaits that promise and never obtains a post: five times for
    a 503 rejection, once, before it throws, for any other. *)
Theorem rejected_future_stays_cached (c : Cache) (a p : string)
    (t1 : number) (e : JsError) :
  postCache c !! keyFor a p = None ->
  resolver (length (begun c)) a p t1 = Rejected e ->
  let c1 := fst (getPostCached resolver c a p t1) in
  let f1 := snd (getPostCached resolver c a p t1) in
  settled f1 = Rejected e /\
  histPost_loop resolver 5 c a p t1 None [] =
    (if is503 e then (c1, replicate 5 f1, inr None)
     else (c1, [f1], inl (ReferenceError "error"))) /\
  forall (between : list Call) (t : number),
    let c2 := run_calls resolver c1 between in
    getPostCached resolver c2 a p t = (c2, f1) /\
    histPost_loop resolver 5 c2 a p t None [] =
      (if is503 e then (c2, replicate 5 f1, inr None)
       else (c2, [f1], inl (ReferenceError "error"))).
Proof.
  intros Hnone Hrej c1 f1.
  assert (Hs : settled f1 = Rejected e).
  { subst f1. unfold getPostCached. rewrite Hnone. simpl. exact Hrej. }
  assert (Hc1 : postCache c1 !! keyFor a p = Some f1)
    by apply getPostCached_caches.
  split; [exact Hs|]. split.
  - change (histPost_loop resolver 5 c a p t1 None [])
      with (let '(c1, f) := getPostCached resolver c a p t1 in
            match settled f with
            | Resolved post =>
                histPost_loop resolver 4 c1 a p t1 (Some post) ([] ++ [f])
            | Rejected err =>
                if is503 err
                then histPost_loop resolver 4 c1 a p t1 None ([] ++ [f])
                else (c1, [] ++ [f], inl (ReferenceError "error"))
            end).
    rewrite (surjective_pairing (getPostCached resolver c a p t1)).
    fold c1 f1. rewrite Hs.
    destruct (is503 e) eqn:E; [|reflexivity].
    rewrite (histPost_loop_rejected c1 a p t1 f1 e Hc1 Hs), E.
    reflexivity.
  - intros between t c2.
    assert (Hc2 : postCache c2 !! keyFor a p = Some f1)
      by apply run_calls_keeps, Hc1.
    split; [apply getPostCached_hit, Hc2|].
    rewrite (histPost_loop_rejected c2 a p t f1 e Hc2 Hs).
    destruct (is503 e); reflexivity.
Qed.

End Cache.

(** A service whose first fetch-and-build block fails with a 503 and
    whose later ones would all succeed. *)
Definition post_p1 : Post :=
  {| author := "alice"; permlink := "p1";
     details := {| total_vests := Some (ofZ 100); totalVests := None;
                   total_rshares := Some (ofZ 1000); totalRshares := None;
                   total_payout_value := ofZ 50 |} |}.

Definition err503 : JsError :=
  {| message := Some "HTTP error 503"; status := None; code := None |}.

Definition resolver_first_fails
    (n : nat) (a p : string) (t : number) : Settled :=
  match n with
  | O => Rejected err503
  | S _ => Resolved post_p1
  end.

Lemma rejected_future_stays_cached_witness :
  let c1 := fst (getPostCached resolver_first_fails empty_cache
                   "alice" "p1" (ofZ 1000)) in
  let f1 := snd (getPostCached resolver_first_fails empty_cache
                   "alice" "p1" (ofZ 1000)) in
  let c2 := run_calls resolver_first_fails c1 [("bob", "p2", ofZ 2000)] in
  settled f1 = Rejected err503 /\
  getPostCached resolver_first_fails c2 "alice" "p1" (ofZ 3000) = (c2, f1) /\
  histPost_loop resolver_first_fails 5 c2 "alice" "p1" (ofZ 3000) None []
  = (c2, replicate 5 f1, inr None).
Proof.
  destruct (rejected_future_stays_cached resolver_first_fails empty_cache
              "alice" "p1" (ofZ 1000) err503)
    as (Hs & _ & H); [apply lookup_empty|reflexivity|].
  split; [exact Hs|].
  exact (H [("bob", "p2", ofZ 2000)] (ofZ 3000)).
Defined.

(** *** The efficiency of one reward event *)

Section Run.

Variable resolver : nat -> string -> string -> number -> Settled.

(** C1, as the code computes it. A reward event the run does not skip
    (its time is truthy, its post resolved) with positive vests, total
    vests, total rshares, scaled vote rshares and contributed share
    yields exactly one new point, appended to [efficiencyData] and
    handed to the chart.  Its efficiency and weighted efficiency are
    the roundings of double-precision values, every quotient and
    product rounded to a double in the order of the source:
    [efficiency = round(((vests / totalVests) /
    ((rshares / 1000000) / totalRshares)) * 100)] and
    [weightedEff = round(efficiency * (percent / 10000))]. *)
Theorem efficiency_formula_in_doubles (tip : Tip) (c c1 : Cache)
    (reward : Reward) (sc : Scatter) (histPost : Post)
    (awaited : list Promise) :
  scatter tip = Some sc ->
  truthy (time reward) = true ->
  histPost_loop resolver 5 c (r_author reward) (r_permlink reward)
    (time reward) None [] = (c1, awaited, inr (Some histPost)) ->
  gt (resolved_total_vests histPost) (ofZ 0) = true ->
  gt (resolved_total_rshares histPost) (ofZ 0) = true ->
  gt (fdiv (rshares (vote tip)) (ofZ 1000000)) (ofZ 0) = true ->
  gt (vests reward) (ofZ 0) = true ->
  gt (fdiv (fdiv (rshares (vote tip)) (ofZ 1000000))
        (resolved_total_rshares histPost)) (ofZ 0) = true ->
  let pctContributed :=
    fdiv (fdiv (rshares (vote tip)) (ofZ 1000000))
      (resolved_total_rshares histPost) in
  let pctReceived := fdiv (vests reward) (resolved_total_vests histPost) in
  let eff := Math_round (fmul (fdiv pctReceived pctContributed) (ofZ 100)) in
  let weff :=
    Math_round (fmul eff (fdiv (percent (vote tip)) (ofZ 10000))) in
  exists tip' pt,
    process_reward resolver tip c reward = (tip', c1, None) /\
    efficiencyData tip' = efficiencyData tip ++ [pt] /\
    scatter tip' = Some (pushPoint sc pt None) /\
    efficiency pt = eff /\
    weightedEff pt = weff.
Proof.
  intros Hsc Htime Hloop Ptv Ptr Prs Pev Ppc pctContributed pctReceived
    eff weff.
  unfold process_reward. rewrite Htime, Hloop. simpl negb. cbv iota.
  unfold score_reward.
  set (tip0 := if String.eqb (author histPost) (post_author tip)
               then set_totAuthor tip (totAuthor tip + 1) else tip).
  assert (Hv0 : vote tip0 = vote tip)
    by (subst tip0; destruct (String.eqb _ _); reflexivity).
  assert (Hs0 : scatter tip0 = Some sc)
    by (subst tip0; destruct (String.eqb _ _); exact Hsc).
  assert (He0 : efficiencyData tip0 = efficiencyData tip)
    by (subst tip0; destruct (String.eqb _ _); reflexivity).
  cbv zeta. rewrite Hv0, Hs0, He0, (gt_zero_or_zero _ Pev).
  rewrite (gt_zero_le _ Ptv), (gt_zero_le _ Ptr), (gt_zero_le _ Prs),
    (gt_zero_le _ Pev), (gt_zero_le _ Ppc).
  cbv [orb].
  eexists _, _. split; [reflexivity|].
  cbn [efficiencyData scatter efficiency weightedEff].
  repeat split; reflexivity.
Qed.

End Run.

(** An event of 5 vests on a post with 100 vests and 1000 rshares in
    total, for a full-weight vote of 100000000 rshares. *)
Definition resolver_ok (n : nat) (a p : string) (t : number) : Settled :=
  Resolved post_p1.

Definition tip_bob : Tip :=
  {| user := "bob"; post_author := "carol";
     post_createdMs := ofZ 1700000000000;
     vote := {| voter := "bob"; percent := ofZ 10000;
                rshares := ofZ 100000000 |};
     days := ofZ 7;
     efficiencyData := [];
     totalCurationRew := ofZ 0;
     contributedValue := ofZ 0;
     totAuthor := 0;
     scatter := Some ScatterFacts.chart_fresh |}.

Definition reward_p1 : Reward :=
  {| time := ofZ 1000; r_author := "alice"; r_permlink := "p1";
     vests := ofZ 5 |}.

(** An event of 1 vest on a post with 1 vest and 9 rshares in total,
    for a full-weight vote of 40000000 rshares: the exact efficiency
    is 22.5. *)
Definition post_nine : Post :=
  mkPost "alice" "p9"
    {| total_vests := Some (ofZ 1); totalVests := None;
       total_rshares := Some (ofZ 9); totalRshares := None;
       total_payout_value := ofZ 10 |}.

Definition resolver_nine (n : nat) (a p : string) (t : number) : Settled :=
  Resolved post_nine.

Definition tip_nine : Tip :=
  {| user := "bob"; post_author := "carol";
     post_createdMs := ofZ 1700000000000;
     vote := {| voter := "bob"; percent := ofZ 10000;
                rshares := ofZ 40000000 |};
     days := ofZ 7;
     efficiencyData := [];
     totalCurationRew := ofZ 0;
     contributedValue := ofZ 0;
     totAuthor := 0;
     scatter := Some ScatterFacts.chart_fresh |}.

Definition reward_nine : Reward :=
  {| time := ofZ 1000; r_author := "alice"; r_permlink := "p9";
     vests := ofZ 1 |}.

Lemma efficiency_formula_in_doubles_witness :
  exists tip' pt,
    process_reward resolver_nine tip_nine empty_cache reward_nine
    = (tip',
       fst (getPostCached resolver_nine empty_cache "alice" "p9" (ofZ 1000)),
       None) /\
    efficiencyData tip' = [pt] /\
    scatter tip' = Some (pushPoint ScatterFacts.chart_fresh pt None) /\
    efficiency pt = ofZ 22 /\
    weightedEff pt = ofZ 22.
Proof.
  exact (efficiency_formula_in_doubles resolver_nine tip_nine empty_cache
           (fst (getPostCached resolver_nine empty_cache
                   "alice" "p9" (ofZ 1000)))
           reward_nine ScatterFacts.chart_fresh post_nine
           (replicate 5
              (snd (getPostCached resolver_nine empty_cache
                      "alice" "p9" (ofZ 1000))))
           eq_refl eq_refl eq_refl eq_refl eq_refl eq_refl eq_refl eq_refl).
Defined.

(** C1, refuted as stated. The event of 1 vest on a post with 1 vest
    and 9 rshares in total, for a vote of 40000000 rshares, meets the
    conditions of the claim: the totals, the vests and
    [rshares / 1000000] are positive.  The claimed efficiency is
    [round(100 * (1/1) / ((40000000/1000000)/9)) = round(22.5) = 23],
    in exact arithmetic and in doubles alike; the run emits a point of
    efficiency 22, because the double of [40 / 9] lies above [40 / 9],
    the double of its inverse is the one below [0.225], and a hundred
    times that rounds to the double below [22.5]. *)
Lemma efficiency_formula_off_by_rounding :
  gt (resolved_total_vests post_nine) (ofZ 0) = true /\
  gt (resolved_total_rshares post_nine) (ofZ 0) = true /\
  gt (div (rshares (vote tip_nine)) (ofZ 1000000)) (ofZ 0) = true /\
  gt (vests reward_nine) (ofZ 0) = true /\
  Math_round
    (div (mul (ofZ 100) (div (ofZ 1) (ofZ 1)))
         (div (div (ofZ 40000000) (ofZ 1000000)) (ofZ 9))) = ofZ 23 /\
  Math_round
    (fdiv (fmul (ofZ 100) (fdiv (ofZ 1) (ofZ 1)))
          (fdiv (fdiv (ofZ 40000000) (ofZ 1000000)) (ofZ 9))) = ofZ 23 /\
  fdiv (fdiv (ofZ 40000000) (ofZ 1000000)) (ofZ 9)
  = Fin (2501999792983609 # 562949953421312) /\
  fdiv (fdiv (ofZ 1) (ofZ 1))
    (fdiv (fdiv (ofZ 40000000) (ofZ 1000000)) (ofZ 9))
  = Fin (2026619832316723 # 9007199254740992) /\
  exists tip' pt,
    process_reward resolver_nine tip_nine empty_cache reward_nine
    = (tip',
       fst (getPostCached resolver_nine empty_cache "alice" "p9" (ofZ 1000)),
       None) /\
    efficiencyData tip' = [pt] /\
    efficiency pt = ofZ 22 /\
    weightedEff pt = ofZ 22.
Proof.
  repeat (split; [vm_compute; reflexivity|]).
  eexists _, _.
  split; [vm_compute; reflexivity|].
  split; [reflexivity|].
  split; vm_compute; reflexivity.
Qed.

(** A contributed share that underflows: a vote of [2^-1000] rshares on
    a post with [2^100] rshares in total has positive
    [rshares / 1000000], and a share of about [2^-1120], below the
    least double, computed as zero.  The event is skipped. *)
Definition post_huge : Post :=
  mkPost "alice" "p9"
    {| total_vests := Some (ofZ 1); totalVests := None;
       total_rshares := Some (ofZ (2 ^ 100)); totalRshares := None;
       total_payout_value := ofZ 10 |}.

Definition resolver_huge (n : nat) (a p : string) (t : number) : Settled :=
  Resolved post_huge.

Definition tip_tiny : Tip :=
  {| user := "bob"; post_author := "carol";
     post_createdMs := ofZ 1700000000000;
     vote := {| voter := "bob"; percent := ofZ 10000;
                rshares := Fin (pow2 (-1000)) |};
     days := ofZ 7;
     efficiencyData := [];
     totalCurationRew := ofZ 0;
     contributedValue := ofZ 0;
     totAuthor := 0;
     scatter := Some ScatterFacts.chart_fresh |}.

Example underflowing_share_skips_event :
  gt (fdiv (rshares (vote tip_tiny)) (ofZ 1000000)) (ofZ 0) = true /\
  fdiv (fdiv (rshares (vote tip_tiny)) (ofZ 1000000))
    (resolved_total_rshares post_huge) = Fin 0 /\
  exists tip',
    process_reward resolver_huge tip_tiny empty_cache reward_nine
    = (tip',
       fst (getPostCached resolver_huge empty_cache "alice" "p9" (ofZ 1000)),
       None) /\
    efficiencyData tip' = [].
Proof.
  repeat (split; [vm_compute; reflexivity|]).
  eexists. split; vm_compute; reflexivity.
Qed.

(** *** A failed window fetch *)

(** The request itself failed: [fetch] rejected, the status was not
    OK, or the body could not be parsed. *)
Definition transport_failure (r : Response) : Prop :=
  match r with Body _ => False | _ => True end.

(** C2, as the code has it. When the window fetch fails,
    [getHistoricCurationRewards] swallows the failure and the run goes
    on with no rows: it returns normally, adds no point, touches
    neither the totals nor the cache nor the raw and plotted points,
    and still finalizes the chart and runs the guide-line step. *)
Theorem window_fetch_failure_is_swallowed
    (resolver : nat -> string -> string -> number -> Settled)
    (rewards_api : string -> number -> number -> Response)
    (tip : Tip) (c : Cache) (sc : Scatter) :
  scatter tip = Some sc ->
  transport_failure
    (rewards_api (user tip)
       (fst (fetch_window (post_createdMs tip) (days tip)))
       (snd (fetch_window (post_createdMs tip) (days tip)))) ->
  let sc' := addStatsLines (finalize sc) in
  getHistoricCurationRewards rewards_api
    (user tip) (post_createdMs tip) (days tip) = None /\
  prefetchEfficiencyData resolver rewards_api tip c
  = (set_scatter tip (Some sc'), c, Returned) /\
  finalized sc' = true /\
  _rawPoints sc' = _rawPoints sc /\
  points sc' = points sc /\
  x_min sc' = x_min sc.
Proof.
  intros Hsc Hfail sc'.
  assert (Hnone : getHistoricCurationRewards rewards_api
                    (user tip) (post_createdMs tip) (days tip) = None).
  { unfold getHistoricCurationRewards.
    destruct (fetch_window (post_createdMs tip) (days tip)) as [lo hi].
    simpl in Hfail.
    destruct (rewards_api (user tip) lo hi); simpl in Hfail;
      [reflexivity..|contradiction]. }
  split; [exact Hnone|]. split.
  - unfold prefetchEfficiencyData. rewrite Hsc, Hnone. simpl.
    rewrite Hsc. reflexivity.
  - destruct (ScatterFacts.addStatsLines_frame (finalize sc))
      as (Hp & Hr & _ & _ & Hx & _ & Hf & _).
    subst sc'. rewrite Hp, Hr, Hx, Hf. simpl. tauto.
Qed.

Definition rewards_down (voter : string) (lo hi : number) : Response :=
  HttpStatus 502.

Lemma window_fetch_failure_is_swallowed_witness :
  prefetchEfficiencyData resolver_ok rewards_down tip_bob empty_cache
  = (set_scatter tip_bob
       (Some (addStatsLines (finalize ScatterFacts.chart_fresh))),
     empty_cache, Returned).
Proof.
  exact (proj1 (proj2 (window_fetch_failure_is_swallowed
                         resolver_ok rewards_down tip_bob empty_cache
                         ScatterFacts.chart_fresh eq_refl I))).
Defined.

(** C2, as stated, fails: with the rewards service down the run of a
    freshly built tip reports nothing to its caller and leaves the
    chart finalized. *)
Lemma window_fetch_failure_not_reported :
  let '(tip', _, completion) :=
    prefetchEfficiencyData resolver_ok rewards_down tip_bob empty_cache in
  completion = Returned /\
  (forall e, completion <> Threw e) /\
  efficiencyData tip' = [] /\
  scatter tip' <> scatter tip_bob /\
  finalized <$> scatter tip_bob = Some false /\
  finalized <$> scatter tip' = Some true.
Proof.
  vm_compute. repeat split; try reflexivity; discriminate.
Qed.

(** *** A resolution that fails with something else than a 503 *)

Definition err404 : JsError :=
  {| message := Some "HTTP error 404"; status := Some 404%Z; code := None |}.

(** The post "gone" of bob cannot be resolved; every other post can. *)
Definition resolver_gone (e : JsError)
    (n : nat) (a p : string) (t : number) : Settled :=
  if String.eqb p "gone" then Rejected e else Resolved post_p1.

Definition rewards_two (voter : string) (lo hi : number) : Response :=
  Body (Some [ {| time := ofZ 1000; r_author := "bob";
                  r_permlink := "gone"; vests := ofZ 5 |};
               {| time := ofZ 2000; r_author := "alice";
                  r_permlink := "p1"; vests := ofZ 5 |} ]).

(** C3. Two events, the first of which fails to resolve with a 404.
    The first attempt is the only one made: the [catch] block throws a
    ReferenceError, the run ends rejected, the second event is never
    looked at and the chart is never finalized.  With a 503 in place of
    the 404 the same run makes its five attempts, skips the event,
    scores the second one and finalizes the chart. *)
Example non_503_failure_aborts_run :
  (let '(tip', c', completion) :=
     prefetchEfficiencyData (resolver_gone err404) rewards_two
       tip_bob empty_cache in
   is503 err404 = false /\
   completion = Threw (ReferenceError "error") /\
   begun c' = [("bob", "gone", ofZ 1000)] /\
   efficiencyData tip' = [] /\
   finalized <$> scatter tip' = Some false) /\
  histPost_loop (resolver_gone err404) 5 empty_cache "bob" "gone"
    (ofZ 1000) None []
  = (fst (getPostCached (resolver_gone err404) empty_cache
            "bob" "gone" (ofZ 1000)),
     [snd (getPostCached (resolver_gone err404) empty_cache
             "bob" "gone" (ofZ 1000))],
     inl (ReferenceError "error")) /\
  (let '(tip', c', completion) :=
     prefetchEfficiencyData (resolver_gone err503) rewards_two
       tip_bob empty_cache in
   is503 err503 = true /\
   completion = Returned /\
   begun c' = [("bob", "gone", ofZ 1000); ("alice", "p1", ofZ 2000)] /\
   map efficiency (efficiencyData tip') = [ofZ 50] /\
   finalized <$> scatter tip' = Some true).
Proof.
  split; [|split].
  - vm_compute. repeat split; reflexivity.
  - reflexivity.
  - vm_compute. repeat split; reflexivity.
Qed.

End PipelineFacts.

(* ===================================================================== *)
(** ** Further properties of the chart state machine *)
(* ===================================================================== *)

Module ScatterMore.
Import EfficiencyScatter ScatterFacts.

(** *** Plotted points and raw points *)

(** On every chart, the plotted points are the raw points projected in
    the current mode, one for one and in arrival order, each at the
    x of its [tsMs]. *)
Theorem plotted_points_mirror_raw_points (s : Scatter) :
  reachable s ->
  points s = map (to_data (showWeighted s)) (_rawPoints s) /\
  length (points s) = length (_rawPoints s) /\
  map pt_x (points s) = map tsMs (_rawPoints s) /\
  map pt_y (points s) = map (project (showWeighted s)) (_rawPoints s).
Proof.
  intros H. pose proof (points_are_projected s H) as Hp.
  split; [exact Hp|]. rewrite Hp.
  split; [apply length_map|].
  split; rewrite map_map; reflexivity.
Qed.

Lemma plotted_points_mirror_raw_points_witness :
  map pt_y (points (toggleMode chart_two_points))
  = map (project true) (_rawPoints (toggleMode chart_two_points)).
Proof.
  refine (proj2 (proj2 (proj2
    (plotted_points_mirror_raw_points (toggleMode chart_two_points) _)))).
  apply reach_toggle. do 2 apply reach_push. apply reach_new.
Defined.

Lemma raw_points_finite s :
  reachable s ->
  Forall (fun p => isFinite (tsMs p) = true /\
                   isFinite (efficiency p) = true) (_rawPoints s).
Proof.
  induction 1 as [a d m b|s p pad _ IH|s _ IH|s _ IH|s _ IH].
  - constructor.
  - unfold pushPoint.
    destruct (isFinite (tsMs p)) eqn:Ht; simpl; [|exact IH].
    destruct (isFinite (efficiency p)) eqn:He; simpl; [|exact IH].
    apply Forall_app. split; [exact IH|]. constructor; [tauto|constructor].
  - destruct (toggleMode_frame s) as (_ & -> & _). exact IH.
  - exact IH.
  - destruct (addStatsLines_frame s) as (_ & -> & _). exact IH.
Qed.

Lemma Math_round_finite n : isFinite (Math_round n) = isFinite n.
Proof. destruct n; reflexivity. Qed.

Lemma points_finite s :
  reachable s ->
  Forall (fun d => isFinite (pt_x d) = true /\
                   isFinite (pt_efficiency d) = true /\
                   (showWeighted s = false -> isFinite (pt_y d) = true))
         (points s).
Proof.
  intros H. pose proof (raw_points_finite s H) as Hr.
  rewrite (points_are_projected s H). apply Forall_map.
  eapply Forall_impl; [exact Hr|].
  intros p [Ht He]. simpl. repeat split; try assumption.
  intros ->. unfold project. rewrite Math_round_finite. exact He.
Qed.

(** No chart ever stores a raw point, or plots a point, whose time or
    efficiency is not a finite number; in RAW mode every plotted y is
    finite as well. *)
Theorem stored_points_are_finite (s : Scatter) :
  reachable s ->
  Forall (fun p => isFinite (tsMs p) = true /\
                   isFinite (efficiency p) = true) (_rawPoints s) /\
  Forall (fun d => isFinite (pt_x d) = true /\
                   isFinite (pt_efficiency d) = true /\
                   (showWeighted s = false -> isFinite (pt_y d) = true))
         (points s).
Proof.
  intros H. split; [apply raw_points_finite, H|apply points_finite, H].
Qed.

Lemma stored_points_are_finite_witness :
  Forall (fun p => isFinite (tsMs p) = true /\
                   isFinite (efficiency p) = true)
         (_rawPoints chart_10_20_30_40).
Proof.
  refine (proj1 (stored_points_are_finite chart_10_20_30_40 _)).
  apply reach_push. unfold foldl. do 3 apply reach_push. apply reach_new.
Defined.

(** *** The axis bounds *)

(** On every chart the x-axis minimum is still the start of the window
    the constructor computed, and [_minPointTs] is still -Infinity:
    no operation ever moves either. *)
Theorem x_axis_minimum_is_fixed (s : Scatter) :
  reachable s ->
  _minPointTs s = NInf /\ x_min s = startMs s /\
  forall p pad, x_min (pushPoint s p pad) = x_min s.
Proof.
  intros H. destruct (minPointTs_stays_minus_infinity s H) as [H1 H2].
  repeat split; try assumption.
  intros p pad. apply pushPoint_never_moves_x_min, H.
Qed.

Lemma x_axis_minimum_is_fixed_witness :
  x_min (toggleMode chart_two_points) = startMs (toggleMode chart_two_points).
Proof.
  refine (proj1 (proj2 (x_axis_minimum_is_fixed
                          (toggleMode chart_two_points) _))).
  apply reach_toggle. do 2 apply reach_push. apply reach_new.
Defined.

(** On a chart whose y-axis maximum is unset or positive, a stream of
    accepted points with positive candidates [ceil(y + pad)] ends with
    a maximum that is no lower than before and no lower than any of
    the candidates. *)
Theorem y_axis_maximum_expands (s : Scatter)
    (l : list (RawPoint * option number)) :
  l <> [] ->
  Forall (fun pp => exists c, lifts (showWeighted s) pp c) l ->
  y_max s = None \/ (exists m, y_max s = Some (Fin m) /\ 0 < m) ->
  exists top, y_max (push_all s l) = Some (Fin top) /\ 0 < top /\
    (forall m, y_max s = Some (Fin m) -> m <= top) /\
    Forall (fun pp => forall c, candidate (showWeighted s) pp = Fin c ->
                                c <= top) l.
Proof. intros Hne Hall Hmax. exact (push_all_y_max_monotone l s Hne Hall Hmax). Qed.


Lemma y_axis_maximum_expands_witness :
  exists top,
    y_max (push_all chart_fresh
             [(mkRaw (ofZ 1699400000000) (ofZ 50) (ofZ 50) (ofZ 2) (ofZ 50)
                 false, None);
              (mkRaw (ofZ 1699500000000) (ofZ 20) (ofZ 5) (ofZ 1) (ofZ 10)
                 true, None)])
    = Some (Fin top) /\ 55 <= top.
Proof.
  destruct (y_axis_maximum_expands chart_fresh
              [(mkRaw (ofZ 1699400000000) (ofZ 50) (ofZ 50) (ofZ 2) (ofZ 50)
                  false, None);
               (mkRaw (ofZ 1699500000000) (ofZ 20) (ofZ 5) (ofZ 1) (ofZ 10)
                  true, None)])
    as (top & Htop & _ & _ & Hc).
  - discriminate.
  - repeat constructor.
    + exists 55. repeat split; reflexivity.
    + exists 25. repeat split; reflexivity.
  - left. reflexivity.
  - exists top. split; [exact Htop|].
    inversion Hc as [|? ? H1 _]; subst. apply H1. reflexivity.
Defined.

(** *** Guide lines *)

Definition guide_line_id (d : LineDataset) : Prop :=
  _id d = "mean-line" \/ _id d = "median-line".

Lemma upsert_ids_in d l :
  _id d ∈ (_id <$> l) -> _id <$> upsert d l = _id <$> l.
Proof.
  induction l as [|e l IH]; intros H.
  - inversion H.
  - cbn [upsert]. destruct (String.eqb (_id e) (_id d)) eqn:E.
    + apply String.eqb_eq in E. cbn. rewrite E. reflexivity.
    + apply String.eqb_neq in E. cbn. f_equal. apply IH.
      cbn in H. apply elem_of_cons in H as [H|H];
        [congruence|exact H].
Qed.

Lemma upsert_ids_notin d l :
  _id d ∉ (_id <$> l) -> _id <$> upsert d l = (_id <$> l) ++ [_id d].
Proof.
  induction l as [|e l IH]; intros H.
  - reflexivity.
  - cbn in H. apply not_elem_of_cons in H as [Hne H].
    cbn [upsert]. destruct (String.eqb (_id e) (_id d)) eqn:E.
    + apply String.eqb_eq in E. congruence.
    + cbn. f_equal. apply IH, H.
Qed.

Lemma upsert_keeps d l :
  guide_line_id d ->
  NoDup (_id <$> l) -> Forall guide_line_id l ->
  NoDup (_id <$> upsert d l) /\ Forall guide_line_id (upsert d l).
Proof.
  intros Hd Hn Hf. split.
  - destruct (decide (_id d ∈ (_id <$> l))) as [H|H];
      [rewrite (upsert_ids_in d l H); exact Hn|].
    rewrite (upsert_ids_notin d l H).
    apply NoDup_app. split; [exact Hn|]. split; [|apply NoDup_singleton].
    intros x Hx Hx'. apply list_elem_of_singleton in Hx'. subst. contradiction.
  - clear Hn. induction Hf as [|e l He Hl IH]; simpl.
    + constructor; [exact Hd|constructor].
    + destruct (String.eqb (_id e) (_id d)); constructor; assumption.
Qed.

Definition lines_ok (s : Scatter) : Prop :=
  NoDup (_id <$> lines s) /\ Forall guide_line_id (lines s) /\
  (finalized s = false -> lines s = []).

Lemma upsertLine_lines_ok s id y c l :
  id = "mean-line" \/ id = "median-line" ->
  finalized s = true ->
  lines_ok s -> lines_ok (_upsertLineDataset s id y c l).
Proof.
  intros Hid Hfin (Hn & Hf & Hz). unfold _upsertLineDataset.
  destruct y as [y|]; [|repeat split; assumption].
  destruct (isFinite y); simpl; [|repeat split; assumption].
  destruct (upsert_keeps
              {| _id := id; line_label := l; line_color := c;
                 line_data := [(x_min s, y);
                               (div (add (x_min s) (x_max s)) (ofZ 2), y);
                               (x_max s, y)] |} (lines s) Hid Hn Hf)
    as [Hn' Hf'].
  repeat split; simpl; try assumption. congruence.
Qed.

Lemma addStatsLines_lines_ok s : lines_ok s -> lines_ok (addStatsLines s).
Proof.
  intros Hok. unfold addStatsLines.
  destruct (finalized s) eqn:Hfin; [|exact Hok].
  destruct (_stats s) as [mean median].
  set (s1 := if truthy_opt mean then _ else s).
  assert (H1 : lines_ok s1 /\ finalized s1 = true).
  { subst s1. destruct (truthy_opt mean); [|tauto]. split.
    - apply upsertLine_lines_ok; [left; reflexivity|exact Hfin|exact Hok].
    - destruct (upsertLine_frame s "mean-line" mean
                  "rgba(107,114,128,0.8)" "Mean") as (_&_&_&_&_&_&_&H&_).
      simpl in H. rewrite H. exact Hfin. }
  set (s2 := if truthy_opt median then _ else s1).
  assert (H2 : lines_ok s2).
  { subst s2. destruct (truthy_opt median); [|tauto].
    apply upsertLine_lines_ok; [right; reflexivity|tauto|tauto]. }
  cbv zeta. destruct (isFinite _); [|exact H2].
  destruct H2 as (Hn & Hf & Hz). repeat split; simpl; assumption.
Qed.

Lemma resetGuideLines_clears l :
  Forall guide_line_id l -> _resetGuideLines l = [].
Proof.
  unfold _resetGuideLines. induction 1 as [|d l Hd _ IH]; [reflexivity|].
  rewrite filter_cons_False; [exact IH|].
  unfold is_guide. destruct Hd as [-> | ->]; simpl; discriminate.
Qed.

Lemma reachable_lines_ok s : reachable s -> lines_ok s.
Proof.
  induction 1 as [a d m b|s p pad _ IH|s _ IH|s _ IH|s _ IH].
  - repeat split; simpl; constructor.
  - unfold pushPoint.
    destruct (negb (isFinite (tsMs p)) || negb (isFinite (efficiency p)));
      [exact IH|exact IH].
  - unfold toggleMode. apply addStatsLines_lines_ok.
    destruct IH as (_ & Hf & _).
    unfold lines_ok. simpl. rewrite (resetGuideLines_clears _ Hf).
    repeat split; constructor.
  - destruct IH as (Hn & Hf & _). repeat split; simpl; try assumption.
    discriminate.
  - apply addStatsLines_lines_ok, IH.
Qed.

(** A chart never shows two guide lines with one id, never a line
    other than the mean and the median line, hence never more than
    two, and none at all before it is finalized; a mode toggle first
    removes every line there is. *)
Theorem guide_lines_are_unique (s : Scatter) :
  reachable s ->
  NoDup (_id <$> lines s) /\
  Forall guide_line_id (lines s) /\
  (length (lines s) <= 2)%nat /\
  (finalized s = false -> lines s = []) /\
  _resetGuideLines (lines s) = [].
Proof.
  intros H. destruct (reachable_lines_ok s H) as (Hn & Hf & Hz).
  repeat split; try assumption.
  - rewrite <- (length_fmap _id).
    change 2%nat with (length ["mean-line"; "median-line"]).
    apply submseteq_length, NoDup_submseteq; [exact Hn|].
    intros x Hx. apply list_elem_of_fmap in Hx as (d & -> & Hd).
    rewrite Forall_forall in Hf. destruct (Hf d Hd) as [-> | ->].
    + left.
    + right. left.
  - apply resetGuideLines_clears, Hf.
Qed.

Definition chart_finalized : Scatter :=
  addStatsLines (addStatsLines (finalize chart_10_20_30_40)).

Lemma chart_finalized_reachable : reachable chart_finalized.
Proof.
  do 2 apply reach_stats. apply reach_finalize, reach_push.
  unfold foldl. do 3 apply reach_push. apply reach_new.
Defined.

Lemma guide_lines_are_unique_witness :
  NoDup (_id <$> lines chart_finalized) /\
  _id <$> lines chart_finalized = ["mean-line"; "median-line"].
Proof.
  split; [|reflexivity].
  exact (proj1 (guide_lines_are_unique chart_finalized
                  chart_finalized_reachable)).
Defined.


(** *** The y-axis maximum after the guide-line step and after a toggle *)













(** *** Rebuilding the plot from the raw points *)

Lemma set_points_same s : set_points s (points s) = s.
Proof. destruct s; reflexivity. Qed.

Lemma rebuild_is_filter w s (l : list RawPoint) :
  showWeighted s = w ->
  omap (fun p =>
          match _getY s p with
          | None => None
          | Some y =>
              Some {| pt_x := tsMs p; pt_y := y;
                      pt_efficiency := efficiency p;
                      pt_weightedEff := weightedEff p;
                      pt_voterRewardValue := voterRewardValue p;
                      pt_totalValue := totalValue p;
                      pt_sameAuthor := sameAuthor p |}
          end) l
  = filter (fun d => isFinite (pt_y d) = true) (map (to_data w) l).
Proof.
  intros Hw. induction l as [|p l IH]; [reflexivity|].
  cbn [omap list_omap map]. unfold _getY at 1. rewrite Hw.
  destruct (isFinite (if w then weightedEff p else efficiency p)) eqn:E.
  - rewrite filter_cons_True.
    + cbn. f_equal. exact IH.
    + cbn. unfold project. rewrite Math_round_finite. exact E.
  - rewrite filter_cons_False.
    + exact IH.
    + cbn. unfold project. rewrite Math_round_finite, E. discriminate.
Qed.

(** Rebuilding the plot from the raw points ([_applyModeToDataset])
    gives the plot the chart already shows, less the points whose y is
    not a finite number; in RAW mode it changes nothing at all. *)
Theorem rebuild_drops_non_finite_points (s : Scatter) :
  reachable s ->
  points (_applyModeToDataset s)
  = filter (fun d => isFinite (pt_y d) = true) (points s) /\
  Forall (fun d => isFinite (pt_y d) = true)
         (points (_applyModeToDataset s)) /\
  (showWeighted s = false -> _applyModeToDataset s = s).
Proof.
  intros H.
  assert (Hp : points (_applyModeToDataset s)
               = filter (fun d => isFinite (pt_y d) = true) (points s)).
  { unfold _applyModeToDataset. cbn [points set_points].
    rewrite (rebuild_is_filter (showWeighted s) s _ eq_refl).
    rewrite <- (points_are_projected s H). reflexivity. }
  split; [exact Hp|]. split.
  - rewrite Hp. apply Forall_forall. intros d Hd.
    apply list_elem_of_filter in Hd as [Hd _]. exact Hd.
  - intros Hraw.
    assert (Hall : filter (fun d => isFinite (pt_y d) = true) (points s)
                   = points s).
    { pose proof (points_finite s H) as Hf.
      revert Hf. generalize (points s) as l.
      induction l as [|d l IH]; intros Hf; [reflexivity|].
      inversion Hf as [|? ? (_ & _ & Hy) Hl]; subst.
      rewrite filter_cons_True by (apply Hy, Hraw).
      f_equal. apply IH, Hl. }
    unfold _applyModeToDataset.
    rewrite (rebuild_is_filter (showWeighted s) s _ eq_refl).
    rewrite <- (points_are_projected s H), Hall.
    apply set_points_same.
Qed.

(** A chart in WEIGHTED mode holding a point whose weighted value is
    NaN. *)
Definition chart_weighted_nan : Scatter :=
  toggleMode chart_10_20_30_40.

Lemma rebuild_drops_non_finite_points_witness :
  map pt_y (points chart_weighted_nan)
  = [ofZ 40; ofZ 10; ofZ 30; NaN] /\
  points (_applyModeToDataset chart_weighted_nan)
  = filter (fun d => isFinite (pt_y d) = true) (points chart_weighted_nan).
Proof.
  split; [reflexivity|].
  refine (proj1 (rebuild_drops_non_finite_points chart_weighted_nan _)).
  apply reach_toggle, reach_push.
  unfold foldl. do 3 apply reach_push. apply reach_new.
Defined.

(** *** Seconds and milliseconds *)



(** *** The statistics stay within the data *)





End ScatterMore.

(* ===================================================================== *)
(** ** Further properties of the cache and of the aggregator run *)
(* ===================================================================== *)

Module PipelineMore.
Import EfficiencyScatter PostCache VoterTip PipelineFacts.

(** *** Cache keys *)

(** The character [/]. *)
Definition slash : Ascii.ascii :=
  Ascii.Ascii true true true true false true false false.

Fixpoint has_slash (s : string) : bool :=
  match s with
  | EmptyString => false
  | String c s' => Ascii.eqb c slash || has_slash s'
  end.

Lemma keyFor_nil p : keyFor "" p = String slash p.
Proof. reflexivity. Qed.

Lemma keyFor_cons c a p : keyFor (String c a) p = String c (keyFor a p).
Proof. reflexivity. Qed.

(** Two (author, permlink) pairs whose authors contain no slash get
    the same cache key only when they are the same pair. *)
Theorem keyFor_injective (a a' p p' : string) :
  has_slash a = false -> has_slash a' = false ->
  keyFor a p = keyFor a' p' -> a = a' /\ p = p'.
Proof.
  revert a'.
  induction a as [|c a IH]; intros [|c' a'] Ha Ha' H;
    rewrite ?keyFor_nil, ?keyFor_cons in H.
  - injection H as ->. tauto.
  - injection H as <- _. cbn in Ha'. discriminate.
  - injection H as -> _. cbn in Ha. discriminate.
  - injection H as -> H. cbn [has_slash] in Ha, Ha'.
    apply orb_false_iff in Ha as [_ Ha].
    apply orb_false_iff in Ha' as [_ Ha'].
    destruct (IH a' Ha Ha' H) as [-> ->]. tauto.
Qed.

Lemma keyFor_injective_witness :
  has_slash "alice" = false /\
  keyFor "alice" "p1" = "alice/p1" /\
  ("alice" = "alice" /\ "p1" = "p1").
Proof.
  split; [reflexivity|]. split; [reflexivity|].
  exact (keyFor_injective "alice" "alice" "p1" "p1"
           eq_refl eq_refl eq_refl).
Defined.

(** With a slash in the author the key no longer tells posts apart. *)
Example keyFor_collision : keyFor "a/b" "c" = keyFor "a" "b/c".
Proof. reflexivity. Qed.

Section CacheInvariant.

Variable resolver : nat -> string -> string -> number -> Settled.

Definition call_key (c : Call) : string := keyFor (fst (fst c)) (snd (fst c)).

(** The promise a logged call started. *)
Definition promise_of (n : nat) (c : Call) : Promise :=
  {| pid := n; begun_with := c;
     settled := resolver n (fst (fst c)) (snd (fst c)) (snd c) |}.

(** A cache in which every key was fetched once: the logged calls have
    pairwise different keys, and the map holds, under the key of the
    [n]-th logged call, the promise that call started, and nothing
    else. *)
Definition cache_wf (c : Cache) : Prop :=
  NoDup (call_key <$> begun c) /\
  (forall n call, begun c !! n = Some call ->
     postCache c !! call_key call = Some (promise_of n call)) /\
  (forall k f, postCache c !! k = Some f ->
     exists call, begun c !! pid f = Some call /\ call_key call = k /\
                  f = promise_of (pid f) call).

Lemma empty_cache_wf : cache_wf empty_cache.
Proof.
  repeat split.
  - constructor.
  - intros n call H. inversion H.
  - intros k f H.
    change (postCache empty_cache) with (∅ : gmap string Promise) in H.
    rewrite lookup_empty in H. discriminate.
Qed.

Lemma getPostCached_wf c a p t :
  cache_wf c -> cache_wf (fst (getPostCached resolver c a p t)).
Proof.
  intros (Hn & Hlog & Hmap). unfold getPostCached.
  destruct (postCache c !! keyFor a p) as [f|] eqn:E; cbn [fst].
  { repeat split; assumption. }
  assert (Hfresh : keyFor a p ∉ (call_key <$> begun c)).
  { intros Hin. apply list_elem_of_fmap in Hin as (call & Hk & Hin).
    apply list_elem_of_lookup in Hin as (n & Hin).
    rewrite Hk, (Hlog n call Hin) in E. discriminate. }
  repeat split; cbn [begun postCache].
  - rewrite fmap_app. apply NoDup_app. split; [exact Hn|].
    split; [|apply NoDup_singleton].
    intros k Hk Hk'. apply list_elem_of_singleton in Hk'. subst k.
    contradiction.
  - intros n call Hcall.
    destruct (decide (n < length (begun c))%nat) as [Hlt|Hge].
    + rewrite lookup_app_l in Hcall by exact Hlt.
      rewrite lookup_insert_ne; [apply Hlog, Hcall|].
      intros Heq. apply Hfresh. rewrite Heq.
      apply list_elem_of_fmap. exists call. split; [reflexivity|].
      apply list_elem_of_lookup. exists n. exact Hcall.
    + rewrite lookup_app_r in Hcall by lia.
      destruct (n - length (begun c))%nat as [|k] eqn:Ek;
        [|destruct k; discriminate].
      injection Hcall as <-.
      assert (n = length (begun c)) as -> by lia.
      apply lookup_insert_eq.
  - intros k f Hf.
    destruct (decide (keyFor a p = k)) as [<-|Hne].
    + rewrite lookup_insert_eq in Hf. injection Hf as <-. cbn [pid].
      exists (a, p, t). split; [|split; reflexivity].
      rewrite lookup_app_r by lia. rewrite Nat.sub_diag. reflexivity.
    + rewrite lookup_insert_ne in Hf by exact Hne.
      destruct (Hmap k f Hf) as (call & Hc & Hk & Hp).
      exists call. split; [|split; assumption].
      apply lookup_app_l_Some. exact Hc.
Qed.

Lemma run_calls_wf l : forall c,
  cache_wf c -> cache_wf (run_calls resolver c l).
Proof.
  induction l as [|[[a p] t] l IH]; intros c H; [exact H|].
  cbn. apply IH, getPostCached_wf, H.
Qed.

End CacheInvariant.


(** *** The retry loop *)

Section RetryLoop.

Variable resolver : nat -> string -> string -> number -> Settled.

Lemma histPost_loop_S n c a p t hist aw :
  histPost_loop resolver (S n) c a p t hist aw =
    match settled (snd (getPostCached resolver c a p t)) with
    | Resolved post =>
        histPost_loop resolver n (fst (getPostCached resolver c a p t))
          a p t (Some post) (aw ++ [snd (getPostCached resolver c a p t)])
    | Rejected err =>
        if is503 err
        then histPost_loop resolver n (fst (getPostCached resolver c a p t))
               a p t hist (aw ++ [snd (getPostCached resolver c a p t)])
        else (fst (getPostCached resolver c a p t),
              aw ++ [snd (getPostCached resolver c a p t)],
              inl (ReferenceError "error"))
    end.
Proof.
  cbn [histPost_loop].
  destruct (getPostCached resolver c a p t) as [c1 f]. reflexivity.
Qed.

(** The loop on a key whose promise is cached and fulfilled. *)
Lemma histPost_loop_resolved c a p t f post :
  postCache c !! keyFor a p = Some f -> settled f = Resolved post ->
  forall n hist aw,
  histPost_loop resolver n c a p t hist aw =
    (c, aw ++ replicate n f,
     inr (match n with O => hist | S _ => Some post end)).
Proof.
  intros Hc Hs n. induction n as [|n IH]; intros hist aw.
  - cbn. rewrite app_nil_r. reflexivity.
  - rewrite histPost_loop_S, (getPostCached_hit _ _ _ _ _ _ Hc).
    cbn [fst snd]. rewrite Hs, IH, <- app_assoc. cbn.
    destruct n; reflexivity.
Qed.

(** The five attempts of the retry loop come to what the first one
    came to: the promise the first attempt returns is the one every
    attempt awaits, at most one fetch-and-build block is started, and
    the loop yields the post of a fulfilled promise, no post for a 503
    rejection, and a ReferenceError for any other rejection. *)
Theorem retry_outcome_is_first_attempt (c : Cache) (a p : string)
    (t : number) :
  let c1 := fst (getPostCached resolver c a p t) in
  let f1 := snd (getPostCached resolver c a p t) in
  histPost_loop resolver 5 c a p t None [] =
    match settled f1 with
    | Resolved post => (c1, replicate 5 f1, inr (Some post))
    | Rejected e =>
        if is503 e then (c1, replicate 5 f1, inr None)
        else (c1, [f1], inl (ReferenceError "error"))
    end /\
  (begun c1 = begun c \/ begun c1 = begun c ++ [(a, p, t)]).
Proof.
  intros c1 f1.
  assert (Hc1 : postCache c1 !! keyFor a p = Some f1)
    by apply getPostCached_caches.
  split.
  - rewrite histPost_loop_S. fold c1 f1.
    destruct (settled f1) as [post|e] eqn:Hs.
    + rewrite (histPost_loop_resolved c1 a p t f1 post Hc1 Hs). reflexivity.
    + destruct (is503 e) eqn:E; [|reflexivity].
      rewrite (histPost_loop_rejected resolver c1 a p t f1 e Hc1 Hs), E.
      reflexivity.
  - subst c1. unfold getPostCached.
    destruct (postCache c !! keyFor a p); cbn; tauto.
Qed.

End RetryLoop.

(** *** The fetch window *)

Lemma Qfloor_unique (x : Q) (z : Z) :
  inject_Z z <= x -> x < inject_Z (z + 1) -> Qfloor x = z.
Proof.
  intros Hlo Hhi.
  pose proof (Qfloor_le x) as H1. pose proof (Qlt_floor x) as H2.
  assert (Ha : (z < Qfloor x + 1)%Z).
  { rewrite Zlt_Qlt. eapply Qle_lt_trans; eassumption. }
  assert (Hb : (Qfloor x < z + 1)%Z).
  { rewrite Zlt_Qlt. eapply Qle_lt_trans; eassumption. }
  lia.
Qed.

Lemma Qfloor_minus_Z (x : Q) (k : Z) :
  Qfloor (x - inject_Z k) = (Qfloor x - k)%Z.
Proof.
  apply Qfloor_unique.
  - unfold Z.sub, Qminus. rewrite inject_Z_plus, inject_Z_opp.
    apply Qplus_le_l, Qfloor_le.
  - replace (Qfloor x - k + 1)%Z with ((Qfloor x + 1) + - k)%Z by lia.
    unfold Qminus. rewrite (inject_Z_plus (Qfloor x + 1)), inject_Z_opp.
    apply Qplus_lt_l, Qlt_floor.
Qed.

(** Equations between sums and products of injected integers. *)
Ltac by_numerators :=
  unfold Qeq, Qplus, Qopp, Qmult, inject_Z; cbn [Qnum Qden];
  rewrite ?Pos.mul_1_r, ?Z.mul_1_r; lia.

(** [new Date(v).getTime()] of a whole number of milliseconds within
    the range of a [Date] is that number. *)
Lemma timeClip_whole (q : Q) (w : Z) :
  q == inject_Z w ->
  (- 8640000000000000 <= w <= 8640000000000000)%Z ->
  timeClip (Fin q) = ofZ w.
Proof.
  intros Hq [Hlo Hhi]. unfold timeClip, Qltb.
  assert (H1 : Qle_bool q 8640000000000000 = true).
  { apply Qle_bool_iff. rewrite Hq.
    change 8640000000000000 with (inject_Z 8640000000000000).
    rewrite <- Zle_Qle. exact Hhi. }
  assert (H2 : Qle_bool (- 8640000000000000) q = true).
  { apply Qle_bool_iff. rewrite Hq.
    change (- 8640000000000000) with (inject_Z (- 8640000000000000)).
    rewrite <- Zle_Qle. exact Hlo. }
  rewrite H1, H2. cbn [negb orb]. unfold ofZ. do 2 f_equal.
  destruct (negb (Qle_bool 0 q)).
  - rewrite (Qceiling_comp _ _ Hq). apply Qceiling_Z.
  - rewrite (Qfloor_comp _ _ Hq). apply Qfloor_Z.
Qed.

(** The whole seconds of a whole number of milliseconds. *)
Lemma floor_div_1000 (q : Q) (a : Z) :
  q == inject_Z a ->
  Math_floor (div (Fin q) (ofZ 1000)) = ofZ (a / 1000).
Proof.
  intros Hq. unfold ofZ. cbn [div].
  change (Qeq_bool (inject_Z 1000) 0) with false. cbv iota.
  cbn [Math_floor]. do 2 f_equal.
  rewrite (Qfloor_comp (q / inject_Z 1000) (a # 1000)).
  - reflexivity.
  - rewrite Hq. unfold Qeq, Qdiv, Qmult, Qinv, inject_Z. cbn. lia.
Qed.

(** A [Date] and a date string are read alike by the request and by
    the chart; a number of seconds is not. *)
Lemma created_readings_agree (created : TimeArg) :
  (forall n, created <> TNumber n) -> createdMs created = _toMs created.
Proof. destruct created as [ms|n|ms]; intros H; [reflexivity| |reflexivity].
  destruct (H n eq_refl). Qed.

Example created_in_seconds_is_read_twice :
  createdMs (TNumber (ofZ 1700000000)) = ofZ 1700000000 /\
  _toMs (TNumber (ofZ 1700000000)) = ofZ 1700000000000.
Proof. split; reflexivity. Qed.

(** For a post whose creation time both the request and the chart read
    as the same whole number [z] of milliseconds, and a whole number
    [d] of days, with [z] and the start [z - (d + 1) * 86400000] of the
    chart in the range of a [Date]: the window requested from the
    rewards service ends at the second [floor((z - 86400000) / 1000)],
    one day before the creation, spans exactly [d * 86400] seconds, and
    starts at the second of the x-axis minimum of the chart built for
    the same post and days, which is [z - (d + 1) * 86400000]. *)
Theorem fetch_window_span (created : TimeArg) (z d : Z) (midnight : number) :
  createdMs created = ofZ z ->
  _toMs created = ofZ z ->
  (- 8640000000000000 <= z <= 8640000000000000)%Z ->
  (- 8640000000000000 <= z - (d + 1) * 86400000 <= 8640000000000000)%Z ->
  let lo := fst (fetch_window (createdMs created) (ofZ d)) in
  let hi := snd (fetch_window (createdMs created) (ofZ d)) in
  let chart := constructor (_toMs created) (Some (ofZ d)) midnight None in
  let zhi := ((z - 86400000) / 1000)%Z in
  hi = ofZ zhi /\
  lo = ofZ (zhi - d * 86400) /\
  x_min chart = ofZ (z - (d + 1) * 86400000) /\
  lo = Math_floor (div (x_min chart) (ofZ 1000)).
Proof.
  intros Hc Ht _ Hrange. cbv zeta. rewrite Hc, Ht.
  assert (Hdiv : ((z - (d + 1) * 86400000) / 1000
                  = (z - 86400000) / 1000 - d * 86400)%Z).
  { replace (z - (d + 1) * 86400000)%Z
      with ((z - 86400000) + (- (d * 86400)) * 1000)%Z by lia.
    rewrite Z.div_add by lia. lia. }
  assert (Hx : x_min (constructor (ofZ z) (Some (ofZ d)) midnight None)
               = ofZ (z - (d + 1) * 86400000)).
  { unfold constructor, oneDayMs, ofZ. cbn [x_min nullish sub neg add mul].
    apply timeClip_whole; [|exact Hrange].
    by_numerators. }
  assert (Hlo : fst (fetch_window (ofZ z) (ofZ d))
                = ofZ ((z - 86400000) / 1000 - d * 86400)).
  { unfold fetch_window. cbn [fst]. rewrite <- Hdiv.
    unfold ofZ at 1 2 3 4. cbn [sub neg add mul].
    apply floor_div_1000.
    by_numerators. }
  split; [|split; [exact Hlo|split; [exact Hx|]]].
  - unfold fetch_window. cbn [snd].
    unfold ofZ at 1 2. cbn [sub neg add].
    apply floor_div_1000.
    by_numerators.
  - rewrite Hlo, Hx, <- Hdiv. symmetry. apply floor_div_1000. reflexivity.
Qed.

(** A post created on 2023-11-14 at 22:13:20 UTC, read from its date
    string, with the default seven days. *)
Lemma fetch_window_span_witness :
  let created := TOther (ofZ 1700000000000) in
  let lo := fst (fetch_window (createdMs created) (ofZ 7)) in
  let hi := snd (fetch_window (createdMs created) (ofZ 7)) in
  let chart :=
    constructor (_toMs created) (Some (ofZ 7)) (ofZ 1699920000000) None in
  hi = ofZ 1699913600 /\
  lo = ofZ 1699308800 /\
  x_min chart = ofZ 1699308800000 /\
  lo = Math_floor (div (x_min chart) (ofZ 1000)).
Proof.
  exact (fetch_window_span (TOther (ofZ 1700000000000)) 1700000000000 7
           (ofZ 1699920000000) eq_refl eq_refl
           ltac:(split; discriminate) ltac:(split; discriminate)).
Defined.

(** *** Signs *)

(** A number that is not negative: NaN, +Infinity or a rational
    [>= 0]. *)
Definition nonneg (n : number) : Prop :=
  match n with Fin q => 0 <= q | NInf => False | PInf | NaN => True end.

(** NaN, +Infinity or a non-negative integer. *)
Definition not_negative (n : number) : Prop :=
  match n with
  | Fin q => exists z, q = inject_Z z /\ (0 <= z)%Z
  | NInf => False
  | PInf | NaN => True
  end.

Lemma le0_false n :
  le n (ofZ 0) = false ->
  (exists q, n = Fin q /\ 0 < q) \/ n = PInf \/ n = NaN.
Proof.
  destruct n as [q| | |]; cbn; intros H; try discriminate; try tauto.
  left. exists q. split; [reflexivity|].
  apply Qnot_le_lt. intros Hle. apply Qle_bool_iff in Hle.
  change (inject_Z 0) with 0 in H. congruence.
Qed.

Lemma le0_false_nonneg n : le n (ofZ 0) = false -> nonneg n.
Proof.
  intros H. destruct (le0_false n H) as [(q & -> & Hq)|[->| ->]]; cbn;
    [apply Qlt_le_weak, Hq|exact I|exact I].
Qed.

Lemma Qltb_pos_0 q : 0 < q -> Qltb q 0 = false.
Proof.
  intros H. unfold Qltb. apply Qlt_le_weak, Qle_bool_iff in H.
  rewrite H. reflexivity.
Qed.

Lemma div_nonneg a b : nonneg a -> le b (ofZ 0) = false -> nonneg (div a b).
Proof.
  intros Ha Hb.
  destruct (le0_false b Hb) as [(qb & -> & Hqb)|[->| ->]];
    destruct a as [qa| | |]; cbn in *; try exact I; try contradiction.
  - rewrite (Qeq_bool_pos qb Hqb). cbn. unfold Qdiv.
    apply Qmult_le_0_compat; [exact Ha|].
    apply Qlt_le_weak, Qinv_lt_0_compat, Hqb.
  - rewrite (Qltb_pos_0 qb Hqb). exact I.
  - apply Qle_refl.
Qed.

Lemma mul_100_nonneg a : nonneg a -> nonneg (mul a (ofZ 100)).
Proof.
  destruct a as [qa| | |]; cbn; intros H; try exact I; try contradiction.
  apply Qmult_le_0_compat; [exact H|discriminate].
Qed.

Lemma round_half_even_nonneg q : 0 <= q -> (0 <= round_half_even q)%Z.
Proof.
  intros H. unfold round_half_even.
  assert (Hf : (0 <= Qfloor q)%Z)
    by (change 0%Z with (Qfloor 0); apply Qfloor_resp_le, H).
  destruct (Qcompare _ _); [destruct (Z.even _)| |]; lia.
Qed.

(** Rounding to a double keeps what is not negative so. *)
Lemma dbl_nonneg n : nonneg n -> nonneg (dbl n).
Proof.
  destruct n as [q| | |]; cbn [dbl nonneg]; intros H; try exact H.
  unfold to_double. destruct (Qcompare q 0) eqn:E.
  - apply Qle_refl.
  - apply Qlt_alt in E. exfalso. apply (Qlt_not_le _ _ E), H.
  - unfold double_pos.
    destruct (Qle_bool _ _); [exact I|]. cbn [nonneg].
    rewrite Qred_correct. apply Qmult_le_0_compat.
    + change 0 with (inject_Z 0). rewrite <- Zle_Qle.
      apply round_half_even_nonneg. unfold Qdiv.
      apply Qmult_le_0_compat; [exact H|].
      apply Qlt_le_weak, Qinv_lt_0_compat, pow2_pos.
    + apply Qlt_le_weak, pow2_pos.
Qed.

Lemma round_not_negative a : nonneg a -> not_negative (Math_round a).
Proof.
  destruct a as [qa| | |]; cbn; intros H; try exact I; try contradiction.
  exists (Qround qa). split; [reflexivity|].
  unfold Qround. change 0%Z with (Qfloor 0).
  apply Qfloor_resp_le.
  apply Qle_trans with qa; [exact H|].
  rewrite <- (Qplus_0_r qa) at 1. apply Qplus_le_r. discriminate.
Qed.

(** *** What one event and one run do to a tip *)

(** The points of a stream handed to the chart one by one. *)
Definition push_stream (sc : Scatter) (l : list RawPoint) : Scatter :=
  foldl (fun s pt => pushPoint s pt None) sc l.

(** [score_reward] once the same-author counter is settled. *)
Definition score_core (tip : Tip) (reward : Reward) (histPost : Post)
    (sameAuthor : bool) : Tip * option Exn :=
  let voterVests := or_zero (vests reward) in
  let totalVests := resolved_total_vests histPost in
  let totalRshares := resolved_total_rshares histPost in
  let voterRshares := fdiv (rshares (vote tip)) (ofZ 1000000) in
  if le totalVests (ofZ 0) || le totalRshares (ofZ 0)
     || le voterRshares (ofZ 0) || le voterVests (ofZ 0)
  then (tip, None)
  else
    let pctContributed := fdiv voterRshares totalRshares in
    let pctReceived := fdiv voterVests totalVests in
    if le pctContributed (ofZ 0) then (tip, None)
    else
      let efficiency :=
        Math_round (fmul (fdiv pctReceived pctContributed) (ofZ 100)) in
      let voteWeight := fdiv (percent (vote tip)) (ofZ 10000) in
      let weightedEfficiency := Math_round (fmul efficiency voteWeight) in
      let totalValue :=
        dbl (toFixed2 (total_payout_value (details histPost))) in
      let voterRewardValue :=
        dbl (toFixed2 (fmul (fdiv voterVests totalVests) totalValue)) in
      let voterContributedValue :=
        dbl (toFixed2 (fmul (fdiv voterRshares totalRshares) totalValue)) in
      let point := {| tsMs := fmul (time reward) (ofZ 1000);
                      efficiency := efficiency;
                      weightedEff := weightedEfficiency;
                      voterRewardValue := voterRewardValue;
                      totalValue := totalValue;
                      sameAuthor := sameAuthor |} in
      match scatter tip with
      | None => (tip, Some TypeError)
      | Some sc =>
          ({| user := user tip; post_author := post_author tip;
              post_createdMs := post_createdMs tip; vote := vote tip;
              days := days tip;
              efficiencyData := efficiencyData tip ++ [point];
              totalCurationRew :=
                fadd (totalCurationRew tip) voterRewardValue;
              contributedValue :=
                fadd (contributedValue tip) voterContributedValue;
              totAuthor := totAuthor tip;
              scatter := Some (pushPoint sc point None) |}, None)
      end.

Lemma score_reward_core tip reward h :
  score_reward tip reward h =
    score_core
      (if String.eqb (author h) (post_author tip)
       then set_totAuthor tip (totAuthor tip + 1) else tip)
      reward h (String.eqb (author h) (post_author tip)).
Proof. reflexivity. Qed.

(** What a step leaves of a tip: the data grows by [new], the chart
    is fed [new], the same-author counter moves by [k], and every new
    point has an efficiency that is not negative and carries the
    [sameAuthor] flag [same] is allowed to. *)
Record step_ok (sc : Scatter) (tip tip' : Tip) (new : list RawPoint)
    (k : Z) : Prop := mk_step_ok {
  ok_data : efficiencyData tip' = efficiencyData tip ++ new;
  ok_chart : scatter tip' = Some (push_stream sc new);
  ok_sign : Forall (fun pt => not_negative (efficiency pt)) new;
  ok_count : totAuthor tip' = (totAuthor tip + k)%Z;
  ok_same : (Z.of_nat (length (filter (fun pt => sameAuthor pt = true) new))
             <= k)%Z;
  ok_frame : user tip' = user tip /\ post_author tip' = post_author tip /\
             post_createdMs tip' = post_createdMs tip /\
             vote tip' = vote tip /\ days tip' = days tip
}.

Lemma step_ok_refl sc tip : scatter tip = Some sc -> step_ok sc tip tip [] 0.
Proof.
  intros H. split; cbn; try tauto.
  - rewrite app_nil_r. reflexivity.
  - constructor.
  - lia.
  - lia.
Qed.

Lemma push_stream_app sc l1 l2 :
  push_stream sc (l1 ++ l2) = push_stream (push_stream sc l1) l2.
Proof. apply foldl_app. Qed.

Lemma step_ok_trans sc tip tip1 tip2 new1 new2 k1 k2 :
  step_ok sc tip tip1 new1 k1 ->
  step_ok (push_stream sc new1) tip1 tip2 new2 k2 ->
  step_ok sc tip tip2 (new1 ++ new2) (k1 + k2).
Proof.
  intros [D1 C1 S1 N1 A1 F1] [D2 C2 S2 N2 A2 F2]. split.
  - rewrite D2, D1, app_assoc. reflexivity.
  - rewrite C2, push_stream_app. reflexivity.
  - apply Forall_app. split; assumption.
  - rewrite N2, N1. lia.
  - rewrite filter_app, length_app. lia.
  - destruct F1 as (U1 & P1 & M1 & V1 & Y1).
    destruct F2 as (U2 & P2 & M2 & V2 & Y2).
    repeat split; congruence.
Qed.

Lemma score_core_ok tip reward h same sc :
  scatter tip = Some sc ->
  exists new,
    snd (score_core tip reward h same) = None /\
    (length new <= 1)%nat /\
    efficiencyData (fst (score_core tip reward h same))
    = efficiencyData tip ++ new /\
    scatter (fst (score_core tip reward h same))
    = Some (push_stream sc new) /\
    Forall (fun pt => not_negative (efficiency pt) /\
                      sameAuthor pt = same /\
                      tsMs pt = fmul (time reward) (ofZ 1000)) new /\
    totAuthor (fst (score_core tip reward h same)) = totAuthor tip /\
    (user (fst (score_core tip reward h same)) = user tip /\
     post_author (fst (score_core tip reward h same)) = post_author tip /\
     post_createdMs (fst (score_core tip reward h same))
     = post_createdMs tip /\
     vote (fst (score_core tip reward h same)) = vote tip /\
     days (fst (score_core tip reward h same)) = days tip).
Proof.
  intros Hsc.
  assert (Hskip : exists new : list RawPoint,
            @None Exn = None /\ (length new <= 1)%nat /\
            efficiencyData tip = efficiencyData tip ++ new /\
            scatter tip = Some (push_stream sc new) /\
            Forall (fun pt => not_negative (efficiency pt) /\
                              sameAuthor pt = same /\
                              tsMs pt = fmul (time reward) (ofZ 1000)) new /\
            totAuthor tip = totAuthor tip /\
            (user tip = user tip /\ post_author tip = post_author tip /\
             post_createdMs tip = post_createdMs tip /\
             vote tip = vote tip /\ days tip = days tip)).
  { exists []. rewrite app_nil_r. cbn. repeat split; try lia; try assumption.
    constructor. }
  unfold score_core.
  destruct (le (resolved_total_vests h) (ofZ 0)) eqn:G1; cbn [orb];
    [exact Hskip|].
  destruct (le (resolved_total_rshares h) (ofZ 0)) eqn:G2; cbn [orb];
    [exact Hskip|].
  destruct (le (fdiv (rshares (vote tip)) (ofZ 1000000)) (ofZ 0)) eqn:G3;
    cbn [orb]; [exact Hskip|].
  destruct (le (or_zero (vests reward)) (ofZ 0)) eqn:G4; cbn [orb];
    [exact Hskip|].
  cbv zeta.
  destruct (le (fdiv (fdiv (rshares (vote tip)) (ofZ 1000000))
                     (resolved_total_rshares h)) (ofZ 0)) eqn:G5;
    [exact Hskip|].
  rewrite Hsc. eexists [_]. cbn [fst snd].
  cbn [efficiencyData scatter totAuthor user post_author
       post_createdMs vote days].
  split; [reflexivity|]. split; [cbn; lia|].
  split; [reflexivity|]. split; [reflexivity|].
  split; [|split; [reflexivity|repeat split; reflexivity]].
  constructor; [|constructor]. cbn [efficiency sameAuthor tsMs].
  split; [|split; reflexivity].
  apply round_not_negative, dbl_nonneg, mul_100_nonneg, dbl_nonneg,
    div_nonneg; [|exact G5].
  apply dbl_nonneg, div_nonneg; [|exact G1]. apply le0_false_nonneg, G4.
Qed.

Lemma score_reward_ok tip reward h sc :
  scatter tip = Some sc ->
  exists new,
    snd (score_reward tip reward h) = None /\
    (length new <= 1)%nat /\
    step_ok sc tip (fst (score_reward tip reward h)) new
      (if String.eqb (author h) (post_author tip) then 1 else 0) /\
    Forall (fun pt => sameAuthor pt
                      = String.eqb (author h) (post_author tip) /\
                      tsMs pt = fmul (time reward) (ofZ 1000)) new.
Proof.
  intros Hsc. rewrite score_reward_core.
  set (same := String.eqb (author h) (post_author tip)).
  set (tip0 := if same then set_totAuthor tip (totAuthor tip + 1) else tip).
  assert (H0 : scatter tip0 = Some sc /\
               efficiencyData tip0 = efficiencyData tip /\
               totAuthor tip0 = (totAuthor tip + if same then 1 else 0)%Z /\
               user tip0 = user tip /\ post_author tip0 = post_author tip /\
               post_createdMs tip0 = post_createdMs tip /\
               vote tip0 = vote tip /\ days tip0 = days tip).
  { subst tip0. destruct same; cbn; repeat split; try assumption. lia. }
  destruct H0 as (S0 & D0 & N0 & U0 & P0 & M0 & V0 & Y0).
  destruct (score_core_ok tip0 reward h same sc S0)
    as (new & He & Hlen & Hd & Hc & Hall & Hn & (U & P & M & V & Y)).
  exists new. split; [exact He|]. split; [exact Hlen|]. split.
  - split.
    + rewrite Hd, D0. reflexivity.
    + exact Hc.
    + eapply Forall_impl; [exact Hall|]. intros pt (H & _). exact H.
    + rewrite Hn, N0. reflexivity.
    + destruct same.
      * pose proof (length_filter (fun pt => sameAuthor pt = true) new).
        lia.
      * assert (Hnil : filter (fun pt => sameAuthor pt = true) new = []).
        { clear -Hall. induction Hall as [|pt l (_ & Hs & _) _ IH];
            [reflexivity|].
          rewrite filter_cons_False by (rewrite Hs; discriminate).
          exact IH. }
        rewrite Hnil. cbn. lia.
    + repeat split; congruence.
  - eapply Forall_impl; [exact Hall|]. intros pt (_ & H1 & H2). tauto.
Qed.

Section Runs.

Variable resolver : nat -> string -> string -> number -> Settled.
Variable rewards_api : string -> number -> number -> Response.

Lemma run_calls_app c l1 l2 :
  run_calls resolver c (l1 ++ l2)
  = run_calls resolver (run_calls resolver c l1) l2.
Proof. apply foldl_app. Qed.

Definition only_reference_error (e : option Exn) : Prop :=
  e = None \/ e = Some (ReferenceError "error").

Lemma process_reward_ok tip c reward sc tip' c' e :
  scatter tip = Some sc ->
  process_reward resolver tip c reward = (tip', c', e) ->
  exists new k calls,
    (length new <= 1)%nat /\ (0 <= k <= 1)%Z /\
    step_ok sc tip tip' new k /\
    c' = run_calls resolver c calls /\
    only_reference_error e.
Proof.
  intros Hsc. unfold process_reward.
  destruct (truthy (time reward)); cbn [negb].
  - destruct (retry_outcome_is_first_attempt resolver c
                (r_author reward) (r_permlink reward) (time reward))
      as [-> _].
    set (c1 := fst (getPostCached resolver c (r_author reward)
                      (r_permlink reward) (time reward))).
    assert (Hc1 : c1 = run_calls resolver c
                         [(r_author reward, r_permlink reward, time reward)])
      by reflexivity.
    destruct (settled _) as [post|err].
    + destruct (score_reward_ok tip reward post sc Hsc)
        as (new & He & Hlen & Hok & _).
      destruct (score_reward tip reward post) as [tip1 e1].
      cbn [fst snd] in *. intros [= <- <- <-].
      exists new, (if String.eqb (author post) (post_author tip)
                   then 1 else 0)%Z,
        [(r_author reward, r_permlink reward, time reward)].
      split; [exact Hlen|]. split; [destruct (String.eqb _ _); lia|].
      split; [exact Hok|]. split; [exact Hc1|]. left. exact He.
    + destruct (is503 err); intros [= <- <- <-].
      * exists [], 0%Z, [(r_author reward, r_permlink reward, time reward)].
        split; [cbn; lia|]. split; [lia|].
        split; [apply (step_ok_refl sc tip Hsc)|].
        split; [exact Hc1|]. left. reflexivity.
      * exists [], 0%Z, [(r_author reward, r_permlink reward, time reward)].
        split; [cbn; lia|]. split; [lia|].
        split; [apply (step_ok_refl sc tip Hsc)|].
        split; [exact Hc1|]. right. reflexivity.
  - intros [= <- <- <-]. exists [], 0%Z, [].
    split; [cbn; lia|]. split; [lia|].
    split; [apply (step_ok_refl sc tip Hsc)|].
    split; [reflexivity|]. left. reflexivity.
Qed.

Lemma process_rows_ok rows : forall tip c sc tip' c' e,
  scatter tip = Some sc ->
  process_rows resolver tip c rows = (tip', c', e) ->
  exists new k calls,
    (length new <= length rows)%nat /\
    (0 <= k <= Z.of_nat (length rows))%Z /\
    step_ok sc tip tip' new k /\
    c' = run_calls resolver c calls /\
    only_reference_error e.
Proof.
  induction rows as [|reward rows IH]; intros tip c sc tip' c' e Hsc; cbn.
  - intros [= <- <- <-]. exists [], 0%Z, [].
    split; [cbn; lia|]. split; [cbn; lia|].
    split; [apply (step_ok_refl sc tip Hsc)|].
    split; [reflexivity|]. left. reflexivity.
  - destruct (process_reward resolver tip c reward) as [[tip1 c1] e1] eqn:E.
    destruct (process_reward_ok tip c reward sc tip1 c1 e1 Hsc E)
      as (new1 & k1 & calls1 & Hl1 & Hk1 & Hok1 & Hc1 & He1).
    destruct e1 as [exn|].
    + intros [= <- <- <-]. exists new1, k1, calls1.
      split; [lia|]. split; [lia|]. split; [exact Hok1|].
      split; [exact Hc1|exact He1].
    + intros Hrest.
      destruct (IH tip1 c1 (push_stream sc new1) tip' c' e
                  (ok_chart _ _ _ _ _ Hok1) Hrest)
        as (new2 & k2 & calls2 & Hl2 & Hk2 & Hok2 & Hc2 & He2).
      exists (new1 ++ new2), (k1 + k2)%Z, (calls1 ++ calls2).
      split; [rewrite length_app; lia|]. split; [lia|].
      split; [eapply step_ok_trans; eassumption|].
      split; [rewrite run_calls_app, <- Hc1; exact Hc2|exact He2].
Qed.

Lemma push_stream_raw new : forall sc,
  _rawPoints (push_stream sc new)
  = _rawPoints sc
    ++ filter (fun pt => isFinite (tsMs pt) && isFinite (efficiency pt)
                         = true) new.
Proof.
  induction new as [|pt new IH]; intros sc.
  - cbn. rewrite app_nil_r. reflexivity.
  - change (push_stream sc (pt :: new))
      with (push_stream (pushPoint sc pt None) new).
    rewrite IH. unfold pushPoint.
    destruct (isFinite (tsMs pt)) eqn:Ht,
             (isFinite (efficiency pt)) eqn:He; cbn [negb orb].
    + rewrite filter_cons_True by (rewrite Ht, He; reflexivity).
      cbn [_rawPoints]. rewrite <- app_assoc. reflexivity.
    + rewrite filter_cons_False by (rewrite Ht, He; discriminate).
      reflexivity.
    + rewrite filter_cons_False by (rewrite Ht, He; discriminate).
      reflexivity.
    + rewrite filter_cons_False by (rewrite Ht, He; discriminate).
      reflexivity.
Qed.

(** The whole of a run, for a tip that has a chart. *)
Lemma prefetch_ok tip c sc tip' c' done :
  scatter tip = Some sc ->
  prefetchEfficiencyData resolver rewards_api tip c = (tip', c', done) ->
  exists new k calls,
    efficiencyData tip' = efficiencyData tip ++ new /\
    Forall (fun pt => not_negative (efficiency pt)) new /\
    totAuthor tip' = (totAuthor tip + k)%Z /\
    (Z.of_nat (length (filter (fun pt => sameAuthor pt = true) new))
     <= k)%Z /\
    c' = run_calls resolver c calls /\
    match done with
    | Returned =>
        scatter tip'
        = Some (addStatsLines (finalize (push_stream sc new)))
    | Threw e =>
        e = ReferenceError "error" /\
        scatter tip' = Some (push_stream sc new)
    end.
Proof.
  intros Hsc. unfold prefetchEfficiencyData. rewrite Hsc.
  set (rows := match getHistoricCurationRewards rewards_api _ _ _ with
               | Some rows => rows | None => [] end).
  destruct (process_rows resolver tip c rows) as [[tip1 c1] e1] eqn:E.
  destruct (process_rows_ok rows tip c sc tip1 c1 e1 Hsc E)
    as (new & k & calls & _ & _ & [D C S N A F] & Hc & He).
  destruct e1 as [exn|].
  - intros [= <- <- <-]. exists new, k, calls.
    repeat split; try assumption.
    destruct He as [He|He]; [discriminate|congruence].
  - rewrite C. intros [= <- <- <-]. exists new, k, calls.
    repeat split; assumption.
Qed.

Lemma prefetch_cache tip c :
  exists calls,
    snd (fst (prefetchEfficiencyData resolver rewards_api tip c))
    = run_calls resolver c calls.
Proof.
  destruct (scatter tip) as [sc|] eqn:Hsc.
  - destruct (prefetchEfficiencyData resolver rewards_api tip c)
      as [[tip' c'] done] eqn:E.
    destruct (prefetch_ok tip c sc tip' c' done Hsc E)
      as (_ & _ & calls & _ & _ & _ & _ & Hc & _).
    exists calls. exact Hc.
  - exists []. unfold prefetchEfficiencyData. rewrite Hsc. reflexivity.
Qed.

Lemma getTipEfficiency_cache tips : forall c,
  exists calls,
    snd (fst (getTipEfficiency resolver rewards_api tips c))
    = run_calls resolver c calls /\
    length (fst (fst (getTipEfficiency resolver rewards_api tips c)))
    = length tips.
Proof.
  induction tips as [|tip tips IH]; intros c; cbn [getTipEfficiency].
  - exists []. split; reflexivity.
  - destruct (prefetch_cache tip c) as (calls1 & H1).
    destruct (prefetchEfficiencyData resolver rewards_api tip c)
      as [[tip1 c1] [|e]]; cbn [fst snd] in H1.
    + destruct (IH c1) as (calls2 & H2 & Hlen).
      destruct (getTipEfficiency resolver rewards_api tips c1)
        as [[rest1 c2] r]. cbn [fst snd] in *.
      exists (calls1 ++ calls2). rewrite run_calls_app, <- H1.
      split; [exact H2|]. cbn. rewrite Hlen. reflexivity.
    + exists calls1. split; [exact H1|reflexivity].
Qed.

(** One run: the points appended to [efficiencyData] are exactly the
    points handed to the chart, in the same order; the chart keeps
    those of them with finite time and efficiency as raw points; a run
    that returns leaves the chart finalized after the guide-line step,
    and a run that throws throws the ReferenceError of the retry loop
    and leaves the chart as the last point left it. *)
Theorem run_feeds_chart (tip : Tip) (c : Cache) (sc : Scatter)
    (tip' : Tip) (c' : Cache) (done : Completion) :
  scatter tip = Some sc ->
  prefetchEfficiencyData resolver rewards_api tip c = (tip', c', done) ->
  exists new,
    efficiencyData tip' = efficiencyData tip ++ new /\
    _rawPoints <$> scatter tip'
    = Some (_rawPoints sc
            ++ filter (fun pt => isFinite (tsMs pt)
                                 && isFinite (efficiency pt) = true) new) /\
    match done with
    | Returned =>
        scatter tip'
        = Some (addStatsLines (finalize (push_stream sc new))) /\
        finalized <$> scatter tip' = Some true
    | Threw e =>
        e = ReferenceError "error" /\
        scatter tip' = Some (push_stream sc new) /\
        finalized <$> scatter tip' = Some (finalized sc)
    end.
Proof.
  intros Hsc E.
  destruct (prefetch_ok tip c sc tip' c' done Hsc E)
    as (new & _ & _ & D & _ & _ & _ & _ & Hdone).
  exists new. split; [exact D|].
  destruct done as [|e].
  - rewrite Hdone. cbn [fmap option_fmap option_map].
    destruct (ScatterFacts.addStatsLines_frame
                (finalize (push_stream sc new)))
      as (_ & -> & _ & _ & _ & _ & -> & _).
    cbn [_rawPoints finalize finalized]. rewrite push_stream_raw. tauto.
  - destruct Hdone as [-> ->]. cbn [fmap option_fmap option_map].
    rewrite push_stream_raw. repeat split.
    f_equal. clear. revert sc.
    induction new as [|pt new IH]; intros sc; [reflexivity|].
    change (push_stream sc (pt :: new))
      with (push_stream (pushPoint sc pt None) new).
    rewrite IH. unfold pushPoint.
    destruct (negb (isFinite (tsMs pt)) || negb (isFinite (efficiency pt)));
      reflexivity.
Qed.

(** No point a run appends has a negative efficiency: each is NaN,
    +Infinity or a non-negative integer. *)
Theorem run_efficiencies_not_negative (tip : Tip) (c : Cache)
    (sc : Scatter) (tip' : Tip) (c' : Cache) (done : Completion) :
  scatter tip = Some sc ->
  prefetchEfficiencyData resolver rewards_api tip c = (tip', c', done) ->
  exists new,
    efficiencyData tip' = efficiencyData tip ++ new /\
    Forall (fun pt => not_negative (efficiency pt)) new.
Proof.
  intros Hsc E.
  destruct (prefetch_ok tip c sc tip' c' done Hsc E)
    as (new & _ & _ & D & S & _).
  exists new. split; assumption.
Qed.

(** The same-author counter of a run only grows, and by at least the
    number of new points flagged [sameAuthor]: it counts the resolved
    events of the author, whether or not they yield a point. *)
Theorem same_author_counter_covers_points (tip : Tip) (c : Cache)
    (sc : Scatter) (tip' : Tip) (c' : Cache) (done : Completion) :
  scatter tip = Some sc ->
  prefetchEfficiencyData resolver rewards_api tip c = (tip', c', done) ->
  exists new,
    efficiencyData tip' = efficiencyData tip ++ new /\
    (totAuthor tip
     + Z.of_nat (length (filter (fun pt => sameAuthor pt = true) new))
     <= totAuthor tip')%Z.
Proof.
  intros Hsc E.
  destruct (prefetch_ok tip c sc tip' c' done Hsc E)
    as (new & k & _ & D & _ & N & A & _).
  exists new. split; [exact D|]. lia.
Qed.

(** Over a whole session of runs on a shared cache that fetched every
    key once, every key is still fetched once: the logged
    fetch-and-build blocks have pairwise different keys, every cached
    promise is the one its logged call started, and no entry the cache
    held is lost or replaced. *)
Theorem session_fetches_each_post_once (tips : list Tip) (c : Cache) :
  cache_wf resolver c ->
  let c' := snd (fst (getTipEfficiency resolver rewards_api tips c)) in
  cache_wf resolver c' /\
  NoDup (call_key <$> begun c') /\
  (forall k f, postCache c !! k = Some f -> postCache c' !! k = Some f) /\
  length (fst (fst (getTipEfficiency resolver rewards_api tips c)))
  = length tips.
Proof.
  intros Hwf c'.
  destruct (getTipEfficiency_cache tips c) as (calls & Hc & Hlen).
  subst c'. rewrite Hc.
  pose proof (run_calls_wf resolver calls c Hwf) as Hwf'.
  repeat split; try apply Hwf'.
  - intros k f Hk. apply run_calls_keeps, Hk.
  - exact Hlen.
Qed.

End Runs.

(** A run over two events, the first of which fails to resolve with a
    503 and is skipped. *)
Definition run_503 : Tip * Cache * Completion :=
  prefetchEfficiencyData (resolver_gone err503) rewards_two
    tip_bob empty_cache.

Lemma run_feeds_chart_witness :
  exists new,
    efficiencyData (fst (fst run_503)) = efficiencyData tip_bob ++ new /\
    _rawPoints <$> scatter (fst (fst run_503))
    = Some (_rawPoints ScatterFacts.chart_fresh
            ++ filter (fun pt => isFinite (tsMs pt)
                                 && isFinite (efficiency pt) = true) new) /\
    scatter (fst (fst run_503))
    = Some (addStatsLines
              (finalize (push_stream ScatterFacts.chart_fresh new))) /\
    finalized <$> scatter (fst (fst run_503)) = Some true.
Proof.
  exact (run_feeds_chart (resolver_gone err503) rewards_two
           tip_bob empty_cache ScatterFacts.chart_fresh
           (fst (fst run_503)) (snd (fst run_503)) Returned
           eq_refl eq_refl).
Defined.

Lemma run_efficiencies_not_negative_witness :
  exists new,
    efficiencyData (fst (fst run_503)) = efficiencyData tip_bob ++ new /\
    Forall (fun pt => not_negative (efficiency pt)) new.
Proof.
  exact (run_efficiencies_not_negative (resolver_gone err503) rewards_two
           tip_bob empty_cache ScatterFacts.chart_fresh
           (fst (fst run_503)) (snd (fst run_503)) (snd run_503)
           eq_refl eq_refl).
Defined.

(** The same two events when both posts are by the author of the post
    on display: the first is counted although it yields no point. *)
Definition tip_alice_post : Tip :=
  {| user := "bob"; post_author := "alice";
     post_createdMs := ofZ 1700000000000;
     vote := {| voter := "bob"; percent := ofZ 10000;
                rshares := ofZ 100000000 |};
     days := ofZ 7;
     efficiencyData := [];
     totalCurationRew := ofZ 0;
     contributedValue := ofZ 0;
     totAuthor := 0;
     scatter := Some ScatterFacts.chart_fresh |}.

Definition post_no_vests : Post :=
  {| author := "alice"; permlink := "old";
     details := {| total_vests := None; totalVests := None;
                   total_rshares := Some (ofZ 1000); totalRshares := None;
                   total_payout_value := ofZ 50 |} |}.

Definition resolver_two (n : nat) (a p : string) (t : number) : Settled :=
  if String.eqb p "p1" then Resolved post_p1 else Resolved post_no_vests.

Definition run_same_author : Tip * Cache * Completion :=
  prefetchEfficiencyData resolver_two rewards_two tip_alice_post empty_cache.

Lemma same_author_counter_covers_points_witness :
  totAuthor (fst (fst run_same_author)) = 2%Z /\
  exists new,
    efficiencyData (fst (fst run_same_author))
    = efficiencyData tip_alice_post ++ new /\
    (totAuthor tip_alice_post
     + Z.of_nat (length (filter (fun pt => sameAuthor pt = true) new))
     <= totAuthor (fst (fst run_same_author)))%Z.
Proof.
  split; [reflexivity|].
  exact (same_author_counter_covers_points resolver_two rewards_two
           tip_alice_post empty_cache ScatterFacts.chart_fresh
           (fst (fst run_same_author)) (snd (fst run_same_author))
           (snd run_same_author) eq_refl eq_refl).
Defined.

Lemma session_fetches_each_post_once_witness :
  NoDup (call_key
           <$> begun (snd (fst (getTipEfficiency resolver_two rewards_two
                                  [tip_bob; tip_alice_post] empty_cache)))).
Proof.
  exact (proj1 (proj2 (session_fetches_each_post_once resolver_two
                         rewards_two [tip_bob; tip_alice_post] empty_cache
                         (empty_cache_wf resolver_two)))).
Defined.

End PipelineMore.

(* ===================================================================== *)
(** ** Properties of the label tables and of the time units *)
(* ===================================================================== *)

Module LangFacts.
Import Lang.

(** A closed decidable statement, settled by evaluation. *)
Ltac by_evaluation := compute_done.

#[local] Instance metrics_eq_dec : EqDecision MetricsLabels.
Proof. solve_decision. Defined.

#[local] Instance graph_eq_dec : EqDecision GraphLabels.
Proof. solve_decision. Defined.

#[local] Instance toggle_eq_dec : EqDecision ToggleLabels.
Proof. solve_decision. Defined.

(** The languages the tables have a clause for. *)
Definition clause_langs : list string :=
  ["fr"; "it"; "ja"; "ko"; "pl"; "ru"; "es"; "uk"].

Lemma run_switch_miss {S : Type}
    (clauses : list (string * (S -> S) * bool)) (x : string) (st : S) :
  Forall (fun cl => String.eqb x (fst (fst cl)) = false) clauses ->
  run_switch clauses x false st = st.
Proof.
  induction 1 as [|[[label body] brk] rest H _ IH]; [reflexivity|].
  cbn in H. cbn [run_switch orb]. rewrite H. exact IH.
Qed.

Lemma not_in_clause_langs x :
  x ∉ clause_langs ->
  Forall (fun l => String.eqb x l = false) clause_langs.
Proof.
  intros H. apply Forall_forall. intros l Hl.
  apply String.eqb_neq. intros ->. contradiction.
Qed.

(** A language no table has a clause for gets the English labels from
    all three tables and, unless it is English itself, the
    UnsupportedLanguageError from [getBeneficiaryInLanguage]. *)
Theorem unknown_language_falls_back_to_english (lang : string) :
  lang ∉ clause_langs ->
  getEfficiencyMetricsInLang lang = getEfficiencyMetricsInLang "en" /\
  getEfficiencyGraphInLang lang = getEfficiencyGraphInLang "en" /\
  getEfficiencyToggle lang = getEfficiencyToggle "en" /\
  (lang <> "en" ->
   getBeneficiaryInLanguage lang = inr (UnsupportedLanguageError lang)).
Proof.
  intros H. pose proof (not_in_clause_langs lang H) as Hall.
  assert (Hm : forall l, l ∈ clause_langs -> String.eqb lang l = false).
  { rewrite Forall_forall in Hall. exact Hall. }
  repeat split.
  - unfold getEfficiencyMetricsInLang at 1. rewrite run_switch_miss;
      [reflexivity|].
    repeat constructor; cbn; apply Hm; by_evaluation.
  - unfold getEfficiencyGraphInLang at 1. rewrite run_switch_miss;
      [reflexivity|].
    repeat constructor; cbn; apply Hm; by_evaluation.
  - unfold getEfficiencyToggle at 1. rewrite run_switch_miss;
      [reflexivity|].
    repeat constructor; cbn; apply Hm; by_evaluation.
  - intros Hen. unfold getBeneficiaryInLanguage.
    apply String.eqb_neq in Hen. rewrite Hen.
    rewrite !Hm by by_evaluation. reflexivity.
Qed.

Lemma unknown_language_falls_back_to_english_witness :
  getEfficiencyGraphInLang "de" = getEfficiencyGraphInLang "en" /\
  getBeneficiaryInLanguage "de" = inr (UnsupportedLanguageError "de").
Proof.
  destruct (unknown_language_falls_back_to_english "de")
    as (_ & Hg & _ & Hb).
  - by_evaluation.
  - split; [exact Hg|]. apply Hb. discriminate.
Defined.

(** Whatever the language, [getEfficiencyToggle] answers with the
    texts of English, French, Italian, Japanese or Ukrainian: the
    clauses of Korean, Polish, Russian and Spanish run on into the
    Ukrainian one. *)
Theorem toggle_texts_run_on_to_ukrainian (lang : string) :
  getEfficiencyToggle lang
  ∈ getEfficiencyToggle <$> ["en"; "fr"; "it"; "ja"; "uk"] /\
  (lang ∈ ["ko"; "pl"; "ru"; "es"] ->
   getEfficiencyToggle lang = getEfficiencyToggle "uk").
Proof.
  split.
  - unfold getEfficiencyToggle at 1, toggle_clauses.
    cbn [run_switch orb].
    destruct (String.eqb lang "fr"); [by_evaluation|].
    destruct (String.eqb lang "it"); [by_evaluation|].
    destruct (String.eqb lang "ja"); [by_evaluation|].
    destruct (String.eqb lang "ko"); [by_evaluation|].
    destruct (String.eqb lang "pl"); [by_evaluation|].
    destruct (String.eqb lang "ru"); [by_evaluation|].
    destruct (String.eqb lang "es"); [by_evaluation|].
    destruct (String.eqb lang "uk"); by_evaluation.
  - intros H. repeat (apply elem_of_cons in H as [->|H]; [reflexivity|]).
    inversion H.
Qed.

Lemma toggle_texts_run_on_to_ukrainian_witness :
  getEfficiencyToggle "es" = getEfficiencyToggle "uk".
Proof.
  apply (proj2 (toggle_texts_run_on_to_ukrainian "es")). by_evaluation.
Defined.

(** Whatever the language, [getEfficiencyGraphInLang] answers with the
    labels of one of the languages other than Italian: the Italian
    clause runs on into the Japanese one, so Italian gets the Japanese
    labels and nobody the Italian ones. *)
Theorem graph_labels_never_italian (lang : string) :
  getEfficiencyGraphInLang lang
  ∈ getEfficiencyGraphInLang
      <$> ["en"; "fr"; "ja"; "ko"; "pl"; "ru"; "es"; "uk"] /\
  g_efficiency (getEfficiencyGraphInLang lang) <> "Efficienza" /\
  getEfficiencyGraphInLang "it" = getEfficiencyGraphInLang "ja".
Proof.
  split; [|split; [|reflexivity]].
  - unfold getEfficiencyGraphInLang at 1, graph_clauses.
    cbn [run_switch orb].
    destruct (String.eqb lang "fr"); [by_evaluation|].
    destruct (String.eqb lang "it"); [by_evaluation|].
    destruct (String.eqb lang "ja"); [by_evaluation|].
    destruct (String.eqb lang "ko"); [by_evaluation|].
    destruct (String.eqb lang "pl"); [by_evaluation|].
    destruct (String.eqb lang "ru"); [by_evaluation|].
    destruct (String.eqb lang "es"); [by_evaluation|].
    destruct (String.eqb lang "uk"); by_evaluation.
  - unfold getEfficiencyGraphInLang, graph_clauses.
    cbn [run_switch orb].
    destruct (String.eqb lang "fr"); [discriminate|].
    destruct (String.eqb lang "it"); [discriminate|].
    destruct (String.eqb lang "ja"); [discriminate|].
    destruct (String.eqb lang "ko"); [discriminate|].
    destruct (String.eqb lang "pl"); [discriminate|].
    destruct (String.eqb lang "ru"); [discriminate|].
    destruct (String.eqb lang "es"); [discriminate|].
    destruct (String.eqb lang "uk"); discriminate.
Qed.


(** English and the eight languages with a clause each get metrics
    labels of their own from [getEfficiencyMetricsInLang]: no two of
    them share a label set. *)
Theorem metrics_labels_tell_languages_apart (l1 l2 : string) :
  l1 ∈ "en" :: clause_langs -> l2 ∈ "en" :: clause_langs ->
  getEfficiencyMetricsInLang l1 = getEfficiencyMetricsInLang l2 ->
  l1 = l2.
Proof.
  assert (H : Forall (fun a => Forall (fun b =>
                getEfficiencyMetricsInLang a = getEfficiencyMetricsInLang b ->
                a = b) ("en" :: clause_langs)) ("en" :: clause_langs))
    by by_evaluation.
  intros H1 H2. rewrite Forall_forall in H.
  pose proof (H l1 H1) as H'. rewrite Forall_forall in H'.
  exact (H' l2 H2).
Qed.

Lemma metrics_labels_tell_languages_apart_witness :
  "pl" ∈ "en" :: clause_langs /\ "pl" = "pl".
Proof.
  assert (H : "pl" ∈ "en" :: clause_langs) by by_evaluation.
  split; [exact H|].
  exact (metrics_labels_tell_languages_apart "pl" "pl" H H eq_refl).
Defined.

End LangFacts.

Module VoteTimesFacts.
Import VoteTimes.

Lemma later_fin a v :
  exists m, later (Fin a) (Fin v) = Fin m /\ a <= m /\ v <= m /\
            (m = a \/ m = v).
Proof.
  unfold later, gt, lt, Qltb. destruct (Qle_bool v a) eqn:E; cbn.
  - apply Qle_bool_imp_le in E. exists a.
    repeat split; try lra. left. reflexivity.
  - assert (a < v).
    { apply Qnot_le_lt. intros H. apply Qle_bool_iff in H. congruence. }
    exists v. repeat split; try lra. right. reflexivity.
Qed.

Lemma latestVoteTime_fin (vs : list Q) : forall a,
  exists m, latestVoteTime (Fin a) (Fin <$> vs) = Fin m /\ a <= m /\
            Forall (fun v => v <= m) vs /\ (m = a \/ m ∈ vs).
Proof.
  induction vs as [|v vs IH]; intros a.
  - exists a. repeat split; [lra|constructor|left; reflexivity].
  - unfold latestVoteTime. cbn [fmap list_fmap foldl].
    destruct (later_fin a v) as (m1 & -> & Ha & Hv & Hm1).
    destruct (IH m1) as (m & Hm & H1 & Hall & Hin).
    unfold latestVoteTime in Hm. rewrite Hm. exists m.
    repeat split.
    + lra.
    + constructor; [lra|exact Hall].
    + destruct Hin as [->|Hin].
      * destruct Hm1 as [->| ->]; [left; reflexivity|right; left].
      * right. right. exact Hin.
Qed.

Lemma Qltb_true a b : Qltb a b = true <-> a < b.
Proof.
  unfold Qltb. split.
  - intros H. apply Qnot_le_lt. intros Hle. apply Qle_bool_iff in Hle.
    rewrite Hle in H. discriminate.
  - intros H. destruct (Qle_bool b a) eqn:E; [|reflexivity].
    apply Qle_bool_imp_le in E. lra.
Qed.

Lemma Qltb_false a b : Qltb a b = false <-> b <= a.
Proof.
  unfold Qltb. split.
  - intros H. apply Qle_bool_iff. destruct (Qle_bool b a); [reflexivity|].
    discriminate.
  - intros H. apply Qle_bool_iff in H. rewrite H. reflexivity.
Qed.

(** For a valid creation time [c] and valid vote times, the unit is
    "minutes" exactly when every vote came less than two hours after
    the creation, "days" exactly when some vote came two days or more
    after it, and "hours" otherwise; votes cast before the creation
    never count. *)
Theorem getTimeUnit_by_latest_vote (c : Q) (vs : list Q) :
  let u := getTimeUnit (Fin c) (Fin <$> vs) in
  (u = "minutes" <-> Forall (fun v => v - c < 7200000) vs) /\
  (u = "days" <-> Exists (fun v => 172800000 <= v - c) vs) /\
  (u = "minutes" \/ u = "hours" \/ u = "days").
Proof.
  cbv zeta. unfold getTimeUnit.
  destruct (latestVoteTime_fin vs c) as (m & -> & Hc & Hall & Hin).
  cbn [sub neg add lt ofZ].
  change (inject_Z (2 * 60 * 60 * 1000)) with 7200000.
  change (inject_Z (2 * 24 * 60 * 60 * 1000)) with 172800000.
  rewrite Forall_forall in Hall.
  destruct (Qltb (m + - c) 7200000) eqn:E1.
  - apply Qltb_true in E1. repeat split; try tauto; try discriminate.
    + intros _. apply Forall_forall. intros v Hv.
      pose proof (Hall v Hv). lra.
    + intros Hex. apply Exists_exists in Hex as (v & Hv & Hge).
      pose proof (Hall v Hv). lra.
  - apply Qltb_false in E1.
    assert (Hmin : ~ Forall (fun v => v - c < 7200000) vs).
    { intros Hf. rewrite Forall_forall in Hf.
      destruct Hin as [->|Hin]; [lra|].
      pose proof (Hf m Hin). lra. }
    destruct (Qltb (m + - c) 172800000) eqn:E2.
    + apply Qltb_true in E2. repeat split; try tauto; try discriminate.
      intros Hex. apply Exists_exists in Hex as (v & Hv & Hge).
      pose proof (Hall v Hv). lra.
    + apply Qltb_false in E2. repeat split; try tauto; try discriminate.
      intros _. apply Exists_exists.
      destruct Hin as [->|Hin]; [lra|].
      exists m. split; [exact Hin|lra].
Qed.

(** Whatever the times, and whatever the text a number is printed as,
    [formatScaledTimeLabel] with the time elapsed up to the latest
    vote words a label as [formatTimeLabel] does with the unit
    [getTimeUnit] picks. *)
Theorem scaled_label_agrees_with_unit
    (toFixed1 show : number -> string)
    (elapsedMs creation : number) (voteTimes : list number) :
  formatScaledTimeLabel toFixed1 show elapsedMs
    (sub (latestVoteTime creation voteTimes) creation)
  = formatTimeLabel toFixed1 show elapsedMs
      (getTimeUnit creation voteTimes).
Proof.
  unfold formatScaledTimeLabel, formatTimeLabel, getTimeUnit.
  destruct (lt _ (ofZ (2 * 60 * 60 * 1000))); [reflexivity|].
  destruct (lt _ (ofZ (2 * 24 * 60 * 60 * 1000))); reflexivity.
Qed.

End VoteTimesFacts.
